(** * CloudSecAIBot: the command-safety gate and the bounded executor

    A shallow embedding of the three MCP servers of the repository
    ([awscli_claude.py], [azurecli_claude.py], [gcpcli_claude.py]) and of the
    HTTP-facing variant ([awscli_mcp.py]), followed by the properties of the
    policy gate ([_is_safe_command]) and of the executor that the
    specification states.

    Conventions of the embedding.
    - A Python [str] is a [string] whose characters are the code points
      U+0000 .. U+00FF; [lower], [strip] and the whitespace test are Python's
      on that range.
    - [bytes] are [list byte]; a decoded text is a list of code points.
    - A handler is a function of its arguments and of the behaviour of the
      child process it spawns; it returns its [TextContent] together with the
      operating-system events it caused and the state of the child. *)

From Stdlib Require Import String Ascii List Bool ZArith NArith Lia.
From Stdlib Require Import Strings.Byte DecimalString.
Import ListNotations.
Local Open Scope string_scope.
Local Open Scope bool_scope.

(* ===================================================================== *)
(** * Python string operations used by the servers *)
(* ===================================================================== *)

Module PyStr.

(** [c.isspace()] on U+0000..U+00FF: the characters [str.strip()] removes. *)
Definition isspace (c : ascii) : bool :=
  let n := N_of_ascii c in
  ((9 <=? n) && (n <=? 13) || (28 <=? n) && (n <=? 32)
   || (n =? 133) || (n =? 160))%N.

(** [c.lower()] on U+0000..U+00FF: A-Z and the Latin-1 capitals
    U+00C0..U+00DE (but U+00D7, the multiplication sign) move up by 32. *)
Definition lower_char (c : ascii) : ascii :=
  let n := N_of_ascii c in
  if ((65 <=? n) && (n <=? 90)
      || (192 <=? n) && (n <=? 222) && negb (n =? 215))%N
  then ascii_of_N (n + 32) else c.

(** [s.lower()] *)
Fixpoint lower (s : string) : string :=
  match s with
  | EmptyString => EmptyString
  | String c s' => String (lower_char c) (lower s')
  end.

(** [s.startswith(p)] *)
Fixpoint startswith (s p : string) {struct p} : bool :=
  match p, s with
  | EmptyString, _ => true
  | String _ _, EmptyString => false
  | String a p', String b s' => Ascii.eqb a b && startswith s' p'
  end.

(** [p in s] *)
Fixpoint contains (p s : string) : bool :=
  startswith s p ||
  match s with
  | EmptyString => false
  | String _ s' => contains p s'
  end.

(** [s.endswith(p)] *)
Fixpoint endswith (s p : string) : bool :=
  String.eqb s p ||
  match s with
  | EmptyString => false
  | String _ s' => endswith s' p
  end.

(** [s.lstrip()] *)
Fixpoint lstrip (s : string) : string :=
  match s with
  | EmptyString => EmptyString
  | String c s' => if isspace c then lstrip s' else s
  end.

(** [s.rstrip()] *)
Fixpoint rstrip (s : string) : string :=
  match s with
  | EmptyString => EmptyString
  | String c s' =>
      match rstrip s' with
      | EmptyString => if isspace c then EmptyString else String c EmptyString
      | r => String c r
      end
  end.

(** [s.strip()] *)
Definition strip (s : string) : string := rstrip (lstrip s).

(** The truth value of a [str]: [if s], [if not s]. *)
Definition nonempty (s : string) : bool :=
  match s with EmptyString => false | String _ _ => true end.

(** [any(q in s for q in qs)] *)
Definition any_in (qs : list string) (s : string) : bool :=
  existsb (fun q => contains q s) qs.

(** The first and the last character of a pattern. *)
Definition first_char (p : string) : option ascii :=
  match p with
  | EmptyString => None
  | String c _ => Some c
  end.

Fixpoint last_char (p : string) : option ascii :=
  match p with
  | EmptyString => None
  | String c EmptyString => Some c
  | String _ p' => last_char p'
  end.

(** A pattern that neither begins nor ends with a space. *)
Definition solid (p : string) : bool :=
  match first_char p, last_char p with
  | Some a, Some b => negb (isspace a) && negb (isspace b)
  | _, _ => false
  end.

(** [f"{n}"] for an [int] *)
Definition str_of_int (n : Z) : string :=
  NilZero.string_of_int (Z.to_int n).

End PyStr.

(* ===================================================================== *)
(** * The policy gates *)
(* ===================================================================== *)

(** [awscli_claude.py], class [AWSMCPServer]. *)
Module AWSMCPServer.
Import PyStr.

Definition dangerous_patterns : list string :=
  [ "rm"; "delete"; "destroy"; "terminate";
    "&&"; "||"; ";"; "|"; ">"; "<";
    "sudo"; "su"; "chmod"; "chown";
    "eval"; "exec"; "system" ].

(** The [for pattern in dangerous_patterns] loop: [false] as soon as a
    pattern occurs in the lower-cased command, [true] when none does. *)
Fixpoint scan (patterns : list string) (command_lower : string) : bool :=
  match patterns with
  | [] => true
  | pattern :: rest =>
      if contains pattern command_lower then false
      else scan rest command_lower
  end.

Definition _is_safe_command (command : string) : bool :=
  let command_lower := lower command in
  if negb (scan dangerous_patterns command_lower) then false
  else if startswith command "-" || startswith command "--" then false
  else true.

End AWSMCPServer.

(** [azurecli_claude.py], class [AzureMCPServer]. *)
Module AzureMCPServer.
Import PyStr.

Definition dangerous_patterns : list string :=
  [ "delete"; "remove"; "destroy"; "purge";
    "&&"; "||"; ";"; "|"; ">"; "<";
    "sudo"; "su"; "chmod"; "chown";
    "eval"; "exec"; "system"; "rm ";
    "deployment delete"; "group delete";
    "vm delete"; "disk delete";
    "keyvault delete"; "storage delete" ].

Fixpoint scan (patterns : list string) (command_lower : string) : bool :=
  match patterns with
  | [] => true
  | pattern :: rest =>
      if contains pattern command_lower then false
      else scan rest command_lower
  end.

Definition _is_safe_command (command : string) : bool :=
  let command_lower := lower command in
  if negb (scan dangerous_patterns command_lower) then false
  else if startswith command "-" || startswith command "--" then false
  else if contains " delete " command_lower
          || endswith command_lower " delete" then false
  else true.

End AzureMCPServer.

(** [gcpcli_claude.py], class [GCPMCPServer]: one gate for gcloud, gsutil
    and bq. *)
Module GCPMCPServer.
Import PyStr.

Definition dangerous_patterns : list string :=
  [ "&&"; "||"; ";"; "|"; ">"; "<"; ">>"; "<<";
    "sudo"; "su"; "chmod"; "chown"; "rm"; "del";
    "eval"; "exec"; "system"; "sh"; "bash";
    "delete"; "destroy"; "remove"; "terminate";
    "mv"; "cp"; "move"; "copy";
    "curl"; "wget"; "ssh"; "scp"; "rsync" ].

(** The list in the [any(...)] of the delete exception. *)
Definition safe_deletes : list string :=
  [ "instances list"; "projects list"; "images list";
    "disks list"; "snapshots list"; "--dry-run"; "--help" ].

(** The loop: a hit on ["delete"] is skipped ([continue]) when one of
    [safe_deletes] occurs in the command; every other hit returns. *)
Fixpoint scan (patterns : list string) (command_lower : string) : bool :=
  match patterns with
  | [] => true
  | pattern :: rest =>
      if contains pattern command_lower then
        if String.eqb pattern "delete" && any_in safe_deletes command_lower
        then scan rest command_lower
        else false
      else scan rest command_lower
  end.

Definition suspicious_chars : list string :=
  [ "$("; "`"; "${"; "\"; "&&"; "||" ].

Definition _is_safe_command (command : string) : bool :=
  let command_lower := lower command in
  if negb (scan dangerous_patterns command_lower) then false
  else if startswith command "-" || startswith command "--" then false
  else if any_in suspicious_chars command then false
  else true.

End GCPMCPServer.


(* ===================================================================== *)
(** * Tokenization: [shlex.split] *)
(* ===================================================================== *)

(** Results of code that can raise: [Ok] for a value, [Err] for the
    exception. *)
Inductive result (E A : Type) : Type :=
| Ok (a : A)
| Err (e : E).
Arguments Ok {E A} a.
Arguments Err {E A} e.

(** The standard library's [shlex.split(s)]: a [shlex] lexer in POSIX mode
    with [whitespace_split = True] and no comment characters, read to its
    end.  No shell takes part: the lexer is a character automaton. *)
Module Shlex.
Import PyStr.

Definition dquote : ascii := "034"%char.
Definition squote : ascii := "039"%char.
Definition backslash : ascii := "092"%char.

(** [nextchar in self.whitespace], with [whitespace = ' \t\r\n']. *)
Definition is_whitespace (c : ascii) : bool :=
  Ascii.eqb c " " || Ascii.eqb c "009" || Ascii.eqb c "013"
  || Ascii.eqb c "010".

(** [nextchar in self.quotes] *)
Definition is_quote (c : ascii) : bool :=
  Ascii.eqb c squote || Ascii.eqb c dquote.

(** [nextchar in self.escape] *)
Definition is_escape (c : ascii) : bool := Ascii.eqb c backslash.

(** [self.state in self.escapedquotes] *)
Definition is_escapedquote (c : ascii) : bool := Ascii.eqb c dquote.

(** [self.state]: [' '] is [Between], ['a'] is [InWord], a quote
    character [q] is [InQuote q], an escape character [e] is
    [InEscape e]. *)
Inductive state : Type :=
| Between
| InWord
| InQuote (q : ascii)
| InEscape (e : ascii).

Definition push (token : string) (c : ascii) : string :=
  token ++ String c EmptyString.

(** What [read_token] hands back when it leaves its loop: the token, or
    nothing when it is empty and nothing was quoted. *)
Definition emit (token : string) (quoted : bool) : list string :=
  if nonempty token || quoted then [token] else [].

(** A token handed back by a [break], followed by those of the later
    calls. *)
Definition then_tokens (token : string)
           (r : result string (list string)) : result string (list string) :=
  match r with
  | Ok l => Ok (token :: l)
  | Err e => Err e
  end.

(** [read_token], called until the end of the input.  [st], [escapedstate],
    [quoted] and [token] are the lexer's variables of those names; a
    [break] restarts the loop with [quoted = False], [escapedstate = ' ']
    and [token = '']. *)
Fixpoint read_tokens (st escapedstate : state) (quoted : bool)
         (token : string) (input : string) {struct input}
  : result string (list string) :=
  match input with
  | EmptyString =>
      match st with
      | Between | InWord => Ok (emit token quoted)
      | InQuote _ => Err "No closing quotation"
      | InEscape _ => Err "No escaped character"
      end
  | String nextchar rest =>
      match st with
      | Between =>
          if is_whitespace nextchar then
            if nonempty token || quoted
            then then_tokens token
                   (read_tokens Between Between false EmptyString rest)
            else read_tokens Between escapedstate quoted token rest
          else if is_escape nextchar then
            read_tokens (InEscape nextchar) InWord quoted token rest
          else if is_quote nextchar then
            read_tokens (InQuote nextchar) escapedstate quoted token rest
          else
            read_tokens InWord escapedstate quoted
                        (String nextchar EmptyString) rest
      | InQuote q =>
          if Ascii.eqb nextchar q then
            read_tokens InWord escapedstate true token rest
          else if is_escape nextchar && is_escapedquote q then
            read_tokens (InEscape nextchar) (InQuote q) true token rest
          else
            read_tokens (InQuote q) escapedstate true
                        (push token nextchar) rest
      | InEscape e =>
          let token' :=
            match escapedstate with
            | InQuote q =>
                if negb (Ascii.eqb nextchar e) && negb (Ascii.eqb nextchar q)
                then push token e else token
            | _ => token
            end in
          read_tokens escapedstate escapedstate quoted
                      (push token' nextchar) rest
      | InWord =>
          if is_whitespace nextchar then
            if nonempty token || quoted
            then then_tokens token
                   (read_tokens Between Between false EmptyString rest)
            else read_tokens Between escapedstate quoted token rest
          else if is_quote nextchar then
            read_tokens (InQuote nextchar) escapedstate quoted token rest
          else if is_escape nextchar then
            read_tokens (InEscape nextchar) InWord quoted token rest
          else
            read_tokens InWord escapedstate quoted
                        (push token nextchar) rest
      end
  end.

(** [shlex.split(s)]: the tokens, or the message of the [ValueError]. *)
Definition split (s : string) : result string (list string) :=
  read_tokens Between Between false EmptyString s.

(** Tokens already handed back, followed by those of the later calls. *)
Definition prepend (ts : list string)
           (r : result string (list string)) : result string (list string) :=
  match r with
  | Ok l => Ok (ts ++ l)%list
  | Err e => Err e
  end.

(** The text of a properly quoted argument: it has no [q] in it, and no
    backslash when [q] is the double quote. *)
Fixpoint plain (q : ascii) (arg : string) : bool :=
  match arg with
  | EmptyString => true
  | String c arg' =>
      negb (Ascii.eqb c q) && negb (is_escape c && is_escapedquote q)
      && plain q arg'
  end.

(** What may follow an argument: nothing, or a whitespace character and
    more text. *)
Definition delimited (after : string) : bool :=
  match after with
  | EmptyString => true
  | String c _ => is_whitespace c
  end.

End Shlex.

(** Shell words.  A word is a sequence of pieces: a character that needs
    no quoting, a character behind a backslash, a text between single
    quotes, or a text between double quotes, in which a backslash may
    stand before any character.  Every way of writing a properly quoted
    argument is such a sequence. *)
Module Word.
Import Shlex.

(** Inside double quotes: a character, or a backslash and a character. *)
Inductive dq_piece : Type :=
| DChar (c : ascii)
| DEsc (c : ascii).

Inductive piece : Type :=
| Char (c : ascii)
| Esc (c : ascii)
| SQ (s : string)
| DQ (body : list dq_piece).

(** Proper quoting: between double quotes a character that stands alone
    is neither the double quote nor the backslash; between single quotes
    there is no single quote; outside quotes a character that stands alone
    is no whitespace, quote or backslash. *)
Definition dq_ok (p : dq_piece) : bool :=
  match p with
  | DChar c => negb (Ascii.eqb c dquote) && negb (is_escape c)
  | DEsc _ => true
  end.

Definition ok (p : piece) : bool :=
  match p with
  | Char c =>
      negb (is_whitespace c) && negb (is_quote c) && negb (is_escape c)
  | Esc _ => true
  | SQ s => plain squote s
  | DQ body => forallb dq_ok body
  end.

(** The text as it is written in the command. *)
Definition dq_text (p : dq_piece) : string :=
  match p with
  | DChar c => String c EmptyString
  | DEsc c => String backslash (String c EmptyString)
  end.

Fixpoint body_text (body : list dq_piece) : string :=
  match body with
  | [] => EmptyString
  | p :: ps => dq_text p ++ body_text ps
  end.

Definition text (p : piece) : string :=
  match p with
  | Char c => String c EmptyString
  | Esc c => String backslash (String c EmptyString)
  | SQ s => String squote (s ++ String squote EmptyString)
  | DQ body => String dquote (body_text body ++ String dquote EmptyString)
  end.

Fixpoint render (word : list piece) : string :=
  match word with
  | [] => EmptyString
  | p :: ps => text p ++ render ps
  end.

(** The argument the text stands for.  Between double quotes a backslash
    is dropped before a double quote or a backslash and kept before any
    other character; elsewhere a backslash is dropped and single quotes
    keep every character. *)
Definition dq_value (p : dq_piece) : string :=
  match p with
  | DChar c => String c EmptyString
  | DEsc c =>
      if Ascii.eqb c backslash || Ascii.eqb c dquote
      then String c EmptyString
      else String backslash (String c EmptyString)
  end.

Fixpoint body_value (body : list dq_piece) : string :=
  match body with
  | [] => EmptyString
  | p :: ps => dq_value p ++ body_value ps
  end.

Definition piece_value (p : piece) : string :=
  match p with
  | Char c | Esc c => String c EmptyString
  | SQ s => s
  | DQ body => body_value body
  end.

Fixpoint value (word : list piece) : string :=
  match word with
  | [] => EmptyString
  | p :: ps => piece_value p ++ value ps
  end.

(** A piece written with quotes. *)
Definition in_quotes (p : piece) : bool :=
  match p with
  | SQ _ | DQ _ => true
  | Char _ | Esc _ => false
  end.

End Word.

(* ===================================================================== *)
(** * Decoding: [bytes.decode('utf-8')] *)
(* ===================================================================== *)

Module Utf8.
Local Open Scope N_scope.

(** The payload of a continuation byte [10xxxxxx]. *)
Definition cont (b : byte) : option N :=
  let n := Byte.to_N b in
  if (128 <=? n) && (n <=? 191) then Some (n - 128) else None.

(** Strict decoding: [None] stands for the [UnicodeDecodeError] that
    [decode] raises on a stray or missing continuation byte, an overlong
    form, a surrogate or a code point above U+10FFFF. *)
Fixpoint decode (bs : list byte) : option (list N) :=
  match bs with
  | [] => Some []
  | b0 :: r0 =>
      let n0 := Byte.to_N b0 in
      if n0 <? 128 then option_map (cons n0) (decode r0)
      else if (194 <=? n0) && (n0 <=? 223) then
        match r0 with
        | b1 :: r1 =>
            match cont b1 with
            | Some c1 =>
                option_map (cons ((n0 - 192) * 64 + c1)) (decode r1)
            | None => None
            end
        | _ => None
        end
      else if (224 <=? n0) && (n0 <=? 239) then
        match r0 with
        | b1 :: b2 :: r2 =>
            match cont b1, cont b2 with
            | Some c1, Some c2 =>
                let cp := (n0 - 224) * 4096 + c1 * 64 + c2 in
                if (cp <? 2048) || (55296 <=? cp) && (cp <=? 57343)
                then None
                else option_map (cons cp) (decode r2)
            | _, _ => None
            end
        | _ => None
        end
      else if (240 <=? n0) && (n0 <=? 244) then
        match r0 with
        | b1 :: b2 :: b3 :: r3 =>
            match cont b1, cont b2, cont b3 with
            | Some c1, Some c2, Some c3 =>
                let cp := (n0 - 240) * 262144 + c1 * 4096 + c2 * 64 + c3 in
                if (cp <? 65536) || (1114111 <? cp)
                then None
                else option_map (cons cp) (decode r3)
            | _, _, _ => None
            end
        | _ => None
        end
      else None
  end.

End Utf8.

(* ===================================================================== *)
(** * Processes, exceptions and the handler monad *)
(* ===================================================================== *)

Module Proc.

(** The exceptions the handlers can meet. *)
Inductive exn : Type :=
| OSError (msg : string)
| TimeoutError
| UnicodeDecodeError
| OverflowError.

(** What the child does, as the handler observes it. *)
Inductive behaviour : Type :=
| FailsToStart (msg : string)
    (** the spawn raises [OSError]: binary missing, permission denied *)
| Exits (returncode : Z) (stdout stderr : list byte)
    (** the child ends within the timeout with these pipes' contents *)
| Hangs
    (** the child is still running when the timeout expires *)
| Unwaited.
    (** the child was started, but [asyncio.wait_for] raises on the value
        of the timeout before it waits: [OverflowError] for an integer too
        large to convert to a float, such as [10**400] *)

(** The calls that create or signal a process. *)
Inductive event : Type :=
| Exec (argv : list string)
    (** [asyncio.create_subprocess_exec( *argv, ...)] *)
| Shell (cmd : string)
    (** [subprocess.check_output(cmd, shell=True, ...)]: [/bin/sh -c cmd] *)
| Kill.
    (** [process.kill()] or [process.terminate()] *)

Inductive child : Type :=
| NoChild
| Running
| Reaped (returncode : Z).

Record world : Type := World { events : list event; proc : child }.

Definition initial : world := World [] NoChild.

(** State and exceptions. *)
Definition M (A : Type) : Type := world -> result exn A * world.

Definition ret {A} (a : A) : M A := fun w => (Ok a, w).

Definition raise {A} (e : exn) : M A := fun w => (Err e, w).

Definition bind {A B} (m : M A) (k : A -> M B) : M B :=
  fun w =>
    match m w with
    | (Ok a, w') => k a w'
    | (Err e, w') => (Err e, w')
    end.

(** [try: body  except ...: handler]: every exception of the body is
    handled, so the result is a plain value. *)
Definition try_except {A} (body : M A) (handler : exn -> A)
  : world -> A * world :=
  fun w =>
    match body w with
    | (Ok a, w') => (a, w')
    | (Err e, w') => (handler e, w')
    end.

(** [await asyncio.create_subprocess_exec( *argv, stdout=PIPE, stderr=PIPE)] *)
Definition create_subprocess_exec (argv : list string) (b : behaviour)
  : M unit :=
  fun w =>
    let evs := (events w ++ [Exec argv])%list in
    match b with
    | FailsToStart msg => (Err (OSError msg), World evs (proc w))
    | _ => (Ok tt, World evs Running)
    end.

(** [await asyncio.wait_for(process.communicate(), timeout=timeout)],
    followed by the read of [process.returncode].  At the timeout
    [wait_for] cancels [communicate()] and raises; the cancellation sends
    nothing to the child.  Which of the outcomes is observed under a given
    timeout is the behaviour's part: the wait that raises on the value of
    the timeout itself is the outcome [Unwaited], and it leaves the child
    as the spawn left it. *)
Definition wait_for_communicate (timeout : Z) (b : behaviour)
  : M (Z * list byte * list byte) :=
  fun w =>
    match b with
    | Exits returncode stdout stderr =>
        (Ok (returncode, stdout, stderr), World (events w) (Reaped returncode))
    | Hangs => (Err TimeoutError, w)
    | Unwaited => (Err OverflowError, w)
    | FailsToStart msg => (Err (OSError msg), w)
    end.

(** [b.decode('utf-8')] *)
Definition decode (b : list byte) : M (list N) :=
  match Utf8.decode b with
  | Some text => ret text
  | None => raise UnicodeDecodeError
  end.

(** Is a child of the handler running in this world? *)
Definition child_alive (w : world) : bool :=
  match proc w with
  | Running => true
  | _ => false
  end.

End Proc.

Declare Scope handler_scope.
Delimit Scope handler_scope with handler.
Notation "x <- m ;; k" := (Proc.bind m (fun x => k))
  (at level 61, m at next level, right associativity) : handler_scope.
Notation "m ;;; k" := (Proc.bind m (fun _ => k))
  (at level 61, right associativity) : handler_scope.

(** The tool call's [arguments] dictionary: the keys the handlers read. *)
Record ToolArguments : Type := Args { command : option string; timeout : option Z }.

(** [dict.get(key, default)] *)
Definition get {A} (field : option A) (default : A) : A :=
  match field with
  | Some v => v
  | None => default
  end.

(** The [TextContent] a handler returns: a text built from literals and
    the arguments ([Text]), the report of a finished command, whose output
    parts are decoded texts ([Report], for
    [f"Command: {full_command}\nExit Code: {returncode}\n\n"] followed by
    [f"Output:\n{...}\n"] and [f"Error:\n{...}\n"] when present), or a
    prefix followed by [str(e)] of a caught exception ([Failure]). *)
Inductive TextContent : Type :=
| Text (text : string)
| Report (full_command : string) (returncode : Z)
         (output error : option (list N))
| Failure (prefix : string) (e : Proc.exn).

(** The statements shared, word for word, by [_execute_aws_command]
    (lines 128-177), [_execute_azure_command] (lines 138-187) and
    [GCPMCPServer._execute_command] (lines 254-304): tokenize, spawn, wait
    with the timeout, build the response, handle the exceptions. *)
Definition _execute_command (full_command : string) (timeout : Z)
           (b : Proc.behaviour) : Proc.world -> TextContent * Proc.world :=
  Proc.try_except
    (match Shlex.split full_command with
     | Err msg => Proc.ret (Text ("Error parsing command: " ++ msg))
     | Ok cmd_parts =>
         (Proc.create_subprocess_exec cmd_parts b ;;;
          r <- Proc.wait_for_communicate timeout b ;;
          let '(returncode, stdout, stderr) := r in
          output <- match stdout with
                    | [] => Proc.ret None
                    | _ => (t <- Proc.decode stdout ;; Proc.ret (Some t))
                    end ;;
          error <- match stderr with
                   | [] => Proc.ret None
                   | _ => (t <- Proc.decode stderr ;; Proc.ret (Some t))
                   end ;;
          Proc.ret (Report full_command returncode output error))%handler
     end)
    (fun e =>
       match e with
       | Proc.TimeoutError =>
           Text ("Error: Command timed out after "
                 ++ PyStr.str_of_int timeout ++ " seconds")
       | _ => Failure "Error executing command: " e
       end).

(** The opening of each [_execute_*_command]: read the arguments, strip,
    refuse the empty command, ask the gate, prepend the binary.  The AWS and
    Azure handlers go on with the statements of [_execute_command] inside the
    same [try]; the three GCP handlers call [_execute_command], and their own
    [except Exception] has nothing left to catch, since [_execute_command]
    handles every exception itself. *)
Definition guarded (is_safe : string -> bool) (binary : string)
           (arguments : ToolArguments) (b : Proc.behaviour)
  : Proc.world -> TextContent * Proc.world :=
  let command := PyStr.strip (get (command arguments) "") in
  let timeout := get (timeout arguments) 30%Z in
  if negb (PyStr.nonempty command) then
    fun w => (Text "Error: No command provided", w)
  else if negb (is_safe command) then
    fun w => (Text "Error: Command contains potentially dangerous operations", w)
  else
    let full_command := binary ++ " " ++ command in
    _execute_command full_command timeout b.

Definition _execute_aws_command :=
  guarded AWSMCPServer._is_safe_command "aws".

Definition _execute_azure_command :=
  guarded AzureMCPServer._is_safe_command "az".

Definition _execute_gcloud_command :=
  guarded GCPMCPServer._is_safe_command "gcloud".

Definition _execute_gsutil_command :=
  guarded GCPMCPServer._is_safe_command "gsutil".

Definition _execute_bq_command :=
  guarded GCPMCPServer._is_safe_command "bq".

(** [awscli_mcp.py], the Flask route [/run-aws]: the request's command goes
    to a shell as one string.  [returncode] and [output] are what the shell
    exits with; the response is the HTTP status and the decoded text. *)
Definition run_aws (command : string) (returncode : Z) (output : list byte)
  : Proc.world -> result Proc.exn (Z * list N) * Proc.world :=
  fun w =>
    let w' := Proc.World (Proc.events w ++ [Proc.Shell command])
                         (Proc.Reaped returncode) in
    match Utf8.decode output with
    | Some text => (Ok (if (returncode =? 0)%Z then 200%Z else 500%Z, text), w')
    | None => (Err Proc.UnicodeDecodeError, w')
    end.

(* ===================================================================== *)
(** * The pipeline in the specification's terms *)
(* ===================================================================== *)

Inductive ProviderKind : Type := AWS | Azure | GCP | GCS | BigQuery.

Definition binary (provider : ProviderKind) : string :=
  match provider with
  | AWS => "aws"
  | Azure => "az"
  | GCP => "gcloud"
  | GCS => "gsutil"
  | BigQuery => "bq"
  end.

Definition is_safe (provider : ProviderKind) : string -> bool :=
  match provider with
  | AWS => AWSMCPServer._is_safe_command
  | Azure => AzureMCPServer._is_safe_command
  | GCP | GCS | BigQuery => GCPMCPServer._is_safe_command
  end.

(** The denylist a provider's gate scans. *)
Definition dangerous_patterns (provider : ProviderKind) : list string :=
  match provider with
  | AWS => AWSMCPServer.dangerous_patterns
  | Azure => AzureMCPServer.dangerous_patterns
  | GCP | GCS | BigQuery => GCPMCPServer.dangerous_patterns
  end.

(** The handler of a provider's command tool. *)
Definition handler (provider : ProviderKind) :=
  match provider with
  | AWS => _execute_aws_command
  | Azure => _execute_azure_command
  | GCP => _execute_gcloud_command
  | GCS => _execute_gsutil_command
  | BigQuery => _execute_bq_command
  end.

Inductive PolicyVerdict : Type :=
| Allowed
| Rejected (reason : string).

(** The verdict of a command the gate refuses. *)
Definition refused : PolicyVerdict :=
  Rejected "Error: Command contains potentially dangerous operations".

(** The verdict a handler reaches before it tokenizes anything. *)
Definition evaluate (raw : string) (provider : ProviderKind) : PolicyVerdict :=
  let command := PyStr.strip raw in
  if negb (PyStr.nonempty command) then
    Rejected "Error: No command provided"
  else if negb (is_safe provider command) then
    Rejected "Error: Command contains potentially dangerous operations"
  else Allowed.

(** The argv of an allowed command: the tokens of the binary's name
    followed by the command. *)
Definition command_spec (raw : string) (provider : ProviderKind)
  : result string (list string) :=
  Shlex.split (binary provider ++ " " ++ PyStr.strip raw).

(** ** Two statements of the specification about the executor *)

(** The text of the timeout report. *)
Definition timed_out (timeout : Z) : TextContent :=
  Text ("Error: Command timed out after "
        ++ PyStr.str_of_int timeout ++ " seconds").

(** "On timeout the process is terminated, not left running": whenever an
    allowed, well-quoted command outlives its timeout, the handler returns
    the timeout report and no child is alive any more. *)
Definition timeout_terminates_child : Prop :=
  forall provider raw t argv,
    evaluate raw provider = Allowed ->
    command_spec raw provider = Ok argv ->
    let '(response, w) :=
      handler provider (Args (Some raw) t) Proc.Hangs Proc.initial in
    response = timed_out (get t 30%Z) /\ Proc.child_alive w = false.

(** "Decoding falls back to a lossy decoding": whatever bytes the child
    wrote, a finished command yields the report of the command, never the
    report of an execution error. *)
Definition decoding_falls_back : Prop :=
  forall full_command argv t returncode stdout stderr w,
    Shlex.split full_command = Ok argv ->
    exists output error,
      fst (_execute_command full_command t
             (Proc.Exits returncode stdout stderr) w)
      = Report full_command returncode output error.

(* ===================================================================== *)
(** * The help tools *)
(* ===================================================================== *)

(** Texts as lists of code points, for the handlers that build their
    answer from decoded output. *)
Module Text.

(** A [str] literal as the list of its code points. *)
Definition cp (s : string) : list N :=
  map N_of_ascii (list_ascii_of_string s).

(** The newline character. *)
Definition nl : string := String "010" EmptyString.

(** What such a handler returns: a text, or a prefix followed by [str(e)]
    of a caught exception. *)
Inductive Content : Type :=
| Chars (text : list N)
| Raised (prefix : string) (e : Proc.exn).

(** [c.isspace()] for any code point: the characters [str.strip()]
    removes. *)
Definition isspace (c : N) : bool :=
  ((9 <=? c) && (c <=? 13) || (28 <=? c) && (c <=? 32)
   || (c =? 133) || (c =? 160) || (c =? 5760)
   || (8192 <=? c) && (c <=? 8202)
   || (c =? 8232) || (c =? 8233) || (c =? 8239) || (c =? 8287)
   || (c =? 12288))%N.

(** [s.lstrip()] *)
Fixpoint lstrip (s : list N) : list N :=
  match s with
  | [] => []
  | c :: s' => if isspace c then lstrip s' else s
  end.

(** [s.rstrip()] *)
Fixpoint rstrip (s : list N) : list N :=
  match s with
  | [] => []
  | c :: s' =>
      match rstrip s' with
      | [] => if isspace c then [] else [c]
      | r => c :: r
      end
  end.

(** [s.strip()] *)
Definition strip (s : list N) : list N := rstrip (lstrip s).

End Text.

Module Help.
Import Text.

(** The [arguments] of a help tool: the keys the handlers read. *)
Record HelpArguments : Type :=
  HelpArgs { service : option string; command : option string }.

(** [if len(help_text) > limit:
       help_text = help_text[:limit] + "\n... (truncated)"] *)
Definition truncate (limit : nat) (help_text : list N) : list N :=
  if (limit <? List.length help_text)%nat
  then (firstn limit help_text ++ cp (nl ++ "... (truncated)"))%list
  else help_text.

(** The statements the three [_get_*_help] share once [cmd] is chosen:
    spawn [cmd], wait with the timeout, return the truncated standard
    output when the exit code is 0 and the standard error otherwise. *)
Definition get_help (cmd : list string) (timeout : Z) (limit : nat)
           (b : Proc.behaviour) : Proc.world -> Content * Proc.world :=
  Proc.try_except
    (Proc.create_subprocess_exec cmd b ;;;
     r <- Proc.wait_for_communicate timeout b ;;
     let '(returncode, stdout, stderr) := r in
     if (returncode =? 0)%Z then
       (help_text <- Proc.decode stdout ;;
        Proc.ret (Chars (truncate limit help_text)))
     else
       (error <- Proc.decode stderr ;;
        Proc.ret (Chars (cp "Error getting help: " ++ error)%list)))%handler
    (fun e =>
       match e with
       | Proc.TimeoutError => Chars (cp "Error: Help command timed out")
       | _ => Raised "Error getting help: " e
       end).

(** [awscli_claude.py], [_get_aws_help] *)
Definition _get_aws_help (arguments : HelpArguments) :=
  let service := get (service arguments) "" in
  let cmd := if PyStr.nonempty service
             then ["aws"; service; "help"] else ["aws"; "help"] in
  get_help cmd 10 2000.

(** [azurecli_claude.py], [_get_azure_help] *)
Definition _get_azure_help (arguments : HelpArguments) :=
  let service := get (service arguments) "" in
  let cmd := if PyStr.nonempty service
             then ["az"; service; "--help"] else ["az"; "--help"] in
  get_help cmd 10 2000.

(** [gcpcli_claude.py], [_get_gcloud_help] *)
Definition _get_gcloud_help (arguments : HelpArguments) :=
  let service := get (service arguments) "" in
  let command := get (command arguments) "" in
  let cmd :=
    if PyStr.nonempty service && PyStr.nonempty command
    then ["gcloud"; service; command; "--help"]
    else if PyStr.nonempty service
         then ["gcloud"; service; "--help"]
         else ["gcloud"; "--help"] in
  get_help cmd 15 3000.

End Help.

(* ===================================================================== *)
(** * The check tools *)
(* ===================================================================== *)

Module Check.
Import Text.

(** The three checks that ask for the version first:
    [_check_aws_config], [_check_azure_login] and [_check_gcloud_auth]. *)
Inductive tool : Type := AwsConfig | AzureLogin | GcloudAuth.

Definition version_cmd (k : tool) : list string :=
  match k with
  | AwsConfig => ["aws"; "--version"]
  | AzureLogin => ["az"; "--version"]
  | GcloudAuth => ["gcloud"; "version"]
  end.

Definition probe_cmd (k : tool) : list string :=
  match k with
  | AwsConfig => ["aws"; "configure"; "list"]
  | AzureLogin => ["az"; "account"; "show"]
  | GcloudAuth => ["gcloud"; "auth"; "list"]
  end.

(** The answer when the version command exits with a non-zero code. *)
Definition not_installed (k : tool) : string :=
  match k with
  | AwsConfig => "AWS CLI is not installed or not accessible"
  | AzureLogin => "Azure CLI is not installed or not accessible"
  | GcloudAuth => "gcloud CLI is not installed or not accessible"
  end.

(** [response_text] before the probe's part. *)
Definition version_part (k : tool) (version_info : list N) : list N :=
  match k with
  | AwsConfig => cp "AWS CLI Version: " ++ version_info ++ cp (nl ++ nl)
  | AzureLogin =>
      cp ("Azure CLI Version:" ++ nl) ++ version_info ++ cp (nl ++ nl)
  | GcloudAuth =>
      cp ("gcloud CLI Version:" ++ nl) ++ version_info ++ cp (nl ++ nl)
  end%list.

(** What precedes the probe's standard output when it exits with 0. *)
Definition ok_part (k : tool) : string :=
  match k with
  | AwsConfig => "Configuration:" ++ nl
  | AzureLogin => "Login Status: Logged in" ++ nl ++ "Current Account:" ++ nl
  | GcloudAuth => "Authentication Status:" ++ nl
  end.

(** What precedes the probe's standard error otherwise. *)
Definition error_part (k : tool) : string :=
  match k with
  | AwsConfig => "Configuration Error:" ++ nl
  | AzureLogin => "Login Status: Not logged in" ++ nl ++ "Error:" ++ nl
  | GcloudAuth => "Authentication Error:" ++ nl
  end.

Definition timed_out_text (k : tool) : string :=
  match k with
  | AwsConfig => "Error: AWS configuration check timed out"
  | AzureLogin => "Error: Azure login check timed out"
  | GcloudAuth => "Error: Authentication check timed out"
  end.

Definition error_prefix (k : tool) : string :=
  match k with
  | AwsConfig => "Error checking AWS configuration: "
  | AzureLogin => "Error checking Azure login: "
  | GcloudAuth => "Error checking authentication: "
  end.

(** The statements of the three handlers, which differ in their literals
    only.  [b1] is the behaviour of the version command, [b2] that of the
    probe. *)
Definition check (k : tool) (b1 b2 : Proc.behaviour)
  : Proc.world -> Content * Proc.world :=
  Proc.try_except
    (Proc.create_subprocess_exec (version_cmd k) b1 ;;;
     r <- Proc.wait_for_communicate 10 b1 ;;
     let '(returncode, stdout, stderr) := r in
     if negb (returncode =? 0)%Z then
       Proc.ret (Chars (cp (not_installed k)))
     else
       (text <- Proc.decode stdout ;;
        let version_info := strip text in
        Proc.create_subprocess_exec (probe_cmd k) b2 ;;;
        r2 <- Proc.wait_for_communicate 10 b2 ;;
        let '(returncode2, stdout2, stderr2) := r2 in
        let response_text := version_part k version_info in
        if (returncode2 =? 0)%Z then
          (t <- Proc.decode stdout2 ;;
           Proc.ret (Chars (response_text ++ cp (ok_part k) ++ t)%list))
        else
          (t <- Proc.decode stderr2 ;;
           Proc.ret (Chars (response_text ++ cp (error_part k) ++ t)%list))))%handler
    (fun e =>
       match e with
       | Proc.TimeoutError => Chars (cp (timed_out_text k))
       | _ => Raised (error_prefix k) e
       end).

(** [awscli_claude.py], [_check_aws_config] *)
Definition _check_aws_config := check AwsConfig.

(** [azurecli_claude.py], [_check_azure_login] *)
Definition _check_azure_login := check AzureLogin.

(** [gcpcli_claude.py], [_check_gcloud_auth] *)
Definition _check_gcloud_auth := check GcloudAuth.

(** [gcpcli_claude.py], [_check_gcloud_config]: two listings, the second
    one whatever the exit code of the first. *)
Definition _check_gcloud_config (b1 b2 : Proc.behaviour)
  : Proc.world -> Content * Proc.world :=
  Proc.try_except
    (Proc.create_subprocess_exec ["gcloud"; "config"; "list"] b1 ;;;
     r <- Proc.wait_for_communicate 10 b1 ;;
     let '(returncode, stdout, stderr) := r in
     first <- (if (returncode =? 0)%Z then Proc.decode stdout
               else (t <- Proc.decode stderr ;;
                     Proc.ret (cp "Error: " ++ t)%list)) ;;
     Proc.create_subprocess_exec
       ["gcloud"; "config"; "configurations"; "list"] b2 ;;;
     r2 <- Proc.wait_for_communicate 10 b2 ;;
     let '(returncode2, stdout2, stderr2) := r2 in
     second <- (if (returncode2 =? 0)%Z then Proc.decode stdout2
                else (t <- Proc.decode stderr2 ;;
                      Proc.ret (cp "Error: " ++ t)%list)) ;;
     Proc.ret (Chars (cp ("gcloud Configuration:" ++ nl) ++ first
                      ++ cp (nl ++ nl ++ "Active Configurations:" ++ nl)
                      ++ second)%list))%handler
    (fun e =>
       match e with
       | Proc.TimeoutError => Chars (cp "Error: Configuration check timed out")
       | _ => Raised "Error checking configuration: " e
       end).

End Check.

(* ===================================================================== *)
(** * Vocabulary of the further properties *)
(* ===================================================================== *)

(** The entries of [suspicious_chars] that the denylist does not already
    hold; only the GCP gate has that list. *)
Definition substitution_markers (provider : ProviderKind) : list string :=
  match provider with
  | AWS | Azure => []
  | GCP | GCS | BigQuery => [ "$("; "`"; "${"; "\" ]
  end.

(** A gate read as a rule table: a denylist entry in the lower-cased
    command, a leading dash, or a substitution marker in the command. *)
Definition denied (provider : ProviderKind) (command : string) : bool :=
  PyStr.any_in (dangerous_patterns provider) (PyStr.lower command)
  || PyStr.startswith command "-"
  || PyStr.any_in (substitution_markers provider) command.

(** A character that lower-casing neither changes nor produces. *)
Definition caseless (a : ascii) : Prop :=
  forall c, Ascii.eqb a (PyStr.lower_char c) = Ascii.eqb a c.

(** The characters of a string. *)
Fixpoint chars (s : string) : list ascii :=
  match s with
  | EmptyString => []
  | String c s' => c :: chars s'
  end.

(** A string of whitespace only, as [strip] sees it. *)
Definition all_space (s : string) : bool := forallb PyStr.isspace (chars s).

(** A word the lexer copies as it is: no whitespace, no quote, no
    backslash, and not empty. *)
Definition bare (u : string) : bool :=
  PyStr.nonempty u
  && forallb (fun c => negb (Shlex.is_whitespace c) && negb (Shlex.is_quote c)
                       && negb (Shlex.is_escape c)) (chars u).

(** How a shown help text relates to the whole one under a limit: at most
    16 characters longer than the limit, equal to the whole text on the
    first [limit] characters, and the whole text when that is short
    enough. *)
Definition bounded_by (limit : nat) (whole shown : list N) : Prop :=
  (List.length shown <= limit + 16)%nat
  /\ firstn limit shown = firstn limit whole
  /\ ((List.length whole <= limit)%nat -> shown = whole).

(** The outcome of a help handler whose command ran into the timeout,
    started in the world [w]: the timeout text, the spawn as the only new
    process call, and the child still running. *)
Definition help_timed_out (w : Proc.world)
           (r : Text.Content * Proc.world) : Prop :=
  fst r = Text.Chars (Text.cp "Error: Help command timed out")
  /\ Proc.child_alive (snd r) = true
  /\ exists cmd,
       Proc.events (snd r) = (Proc.events w ++ [Proc.Exec cmd])%list.

(** Does [bytes.decode('utf-8')] succeed? *)
Definition decodes (bs : list byte) : bool :=
  match Utf8.decode bs with
  | Some _ => true
  | None => false
  end.

(** Is the second command of a version-first check reached?  Only after
    a version command that exits with 0 and whose output decodes. *)
Definition probe_reached (b1 : Proc.behaviour) : bool :=
  match b1 with
  | Proc.Exits returncode stdout _ => (returncode =? 0)%Z && decodes stdout
  | _ => false
  end.

(** Is the second listing of [_check_gcloud_config] reached?  After a first
    listing that exits, with any code, and whose shown pipe decodes. *)
Definition listing_reached (b1 : Proc.behaviour) : bool :=
  match b1 with
  | Proc.Exits returncode stdout stderr =>
      decodes (if (returncode =? 0)%Z then stdout else stderr)
  | _ => false
  end.

(** Has a child been started in this world, whether it still runs or has
    been waited for? *)
Definition started (w : Proc.world) : bool :=
  match Proc.proc w with
  | Proc.NoChild => false
  | _ => true
  end.

(** [" ".join(words)] *)
Definition join (words : list string) : string := String.concat " " words.

(** Bytes below 0x80. *)
Definition ascii_bytes (bs : list byte) : bool :=
  forallb (fun b => (Byte.to_N b <? 128)%N) bs.

(** The report part of a pipe: absent when the pipe is empty. *)
Definition part (bs : list byte) : option (list N) :=
  match bs with
  | [] => None
  | _ => Some (map Byte.to_N bs)
  end.

(* ===================================================================== *)
(** * Facts about the string operations *)
(* ===================================================================== *)

Module PyStrFacts.
Import PyStr.

Lemma append_assoc (a b c : string) : (a ++ b) ++ c = a ++ (b ++ c).
Proof. induction a as [|x a IH]; simpl; [reflexivity | now rewrite IH]. Qed.

Lemma append_nil_r (a : string) : a ++ "" = a.
Proof. induction a as [|x a IH]; simpl; [reflexivity | now rewrite IH]. Qed.

Lemma startswith_app (p b : string) : startswith (p ++ b) p = true.
Proof.
  induction p as [|x p IH]; simpl; [reflexivity|].
  now rewrite Ascii.eqb_refl, IH.
Qed.

Lemma startswith_inv (p s : string) :
  startswith s p = true -> exists b, s = p ++ b.
Proof.
  revert s; induction p as [|x p IH]; intros s H.
  - now exists s.
  - destruct s as [|y s]; simpl in H; [discriminate|].
    apply andb_true_iff in H as [Hxy H].
    apply Ascii.eqb_eq in Hxy; subst y.
    destruct (IH _ H) as [b ->]. now exists b.
Qed.

(** [p in s] holds exactly when [s] is [a ++ p ++ b]. *)
Lemma contains_startswith (p s : string) :
  startswith s p = true -> contains p s = true.
Proof. intros H. destruct s; simpl; now rewrite H. Qed.

Lemma contains_intro (p a b : string) : contains p (a ++ p ++ b) = true.
Proof.
  induction a as [|x a IH]; simpl.
  - apply contains_startswith, startswith_app.
  - rewrite IH. apply orb_true_r.
Qed.

Lemma contains_inv (p s : string) :
  contains p s = true -> exists a b, s = a ++ p ++ b.
Proof.
  induction s as [|x s IH]; simpl; intros H.
  - rewrite orb_false_r in H. apply startswith_inv in H as [b Hb].
    now exists "", b.
  - apply orb_true_iff in H as [H|H].
    + apply startswith_inv in H as [b Hb]. now exists "", b.
    + destruct (IH H) as (a & b & ->). now exists (String x a), b.
Qed.

Lemma contains_nonempty (p s : string) :
  contains p s = true -> PyStr.nonempty p = true -> PyStr.nonempty s = true.
Proof.
  intros H Hp. apply contains_inv in H as (a & b & ->).
  destruct a; [destruct p; [discriminate|]|]; reflexivity.
Qed.

Lemma endswith_contains (p s : string) :
  endswith s p = true -> contains p s = true.
Proof.
  induction s as [|x s IH]; intros H.
  - destruct p; [reflexivity | discriminate].
  - change (endswith (String x s) p)
      with (String.eqb (String x s) p || endswith s p) in H.
    apply orb_true_iff in H as [H|H].
    + apply String.eqb_eq in H; subst p.
      apply contains_startswith.
      rewrite <- (append_nil_r (String x s)) at 1.
      apply startswith_app.
    + simpl. rewrite (IH H). apply orb_true_r.
Qed.

(** A pattern inside a pattern: whatever contains the longer one contains
    the shorter one. *)
Lemma contains_trans (p q s : string) :
  contains p q = true -> contains q s = true -> contains p s = true.
Proof.
  intros Hpq Hqs.
  apply contains_inv in Hpq as (a & b & ->).
  apply contains_inv in Hqs as (a' & b' & ->).
  replace (a' ++ (a ++ p ++ b) ++ b') with ((a' ++ a) ++ p ++ (b ++ b')).
  - apply contains_intro.
  - now rewrite !append_assoc.
Qed.

Lemma lower_app (a b : string) : lower (a ++ b) = lower a ++ lower b.
Proof. induction a as [|x a IH]; simpl; [reflexivity | now rewrite IH]. Qed.

(** Lower-casing keeps the occurrences of a pattern that is its own
    lower case. *)
Lemma contains_lower (p s : string) :
  lower p = p -> contains p s = true -> contains p (lower s) = true.
Proof.
  intros Hp H. apply contains_inv in H as (a & b & ->).
  rewrite !lower_app, Hp. apply contains_intro.
Qed.

Lemma isspace_lower_char (c : ascii) : isspace (lower_char c) = isspace c.
Proof. destruct c as [[] [] [] [] [] [] [] []]; reflexivity. Qed.

Lemma lstrip_lower (s : string) : lstrip (lower s) = lower (lstrip s).
Proof.
  induction s as [|x s IH]; simpl; [reflexivity|].
  rewrite isspace_lower_char. now destruct (isspace x).
Qed.

Lemma rstrip_lower (s : string) : rstrip (lower s) = lower (rstrip s).
Proof.
  induction s as [|x s IH]; simpl; [reflexivity|].
  rewrite IH, isspace_lower_char.
  destruct (rstrip s); simpl; [now destruct (isspace x) | reflexivity].
Qed.

Lemma strip_lower (s : string) : strip (lower s) = lower (strip s).
Proof. unfold strip. now rewrite lstrip_lower, rstrip_lower. Qed.

(** [lstrip] stops at the first character that is not a space. *)
Lemma lstrip_app (a : string) (c : ascii) (r : string) :
  isspace c = false -> exists a', lstrip (a ++ String c r) = a' ++ String c r.
Proof.
  intros Hc. induction a as [|x a IH]; simpl.
  - rewrite Hc. now exists "".
  - destruct (isspace x); [exact IH|]. now exists (String x a).
Qed.

(** [rstrip] removes nothing before the last character that is not a
    space. *)
Lemma rstrip_app (a : string) (c : ascii) (r : string) :
  isspace c = false -> rstrip (a ++ String c r) = a ++ String c (rstrip r).
Proof.
  intros Hc. induction a as [|x a IH]; simpl.
  - rewrite Hc. now destruct (rstrip r).
  - rewrite IH. now destruct a.
Qed.

Lemma last_char_split (p : string) (c : ascii) :
  last_char p = Some c -> exists x, p = x ++ String c "".
Proof.
  induction p as [|y p IH]; simpl; [discriminate|].
  destruct p as [|z p].
  - intros [= ->]. now exists "".
  - intros H. destruct (IH H) as [x ->]. now exists (String y x).
Qed.

Lemma first_char_split (p : string) (c : ascii) :
  first_char p = Some c -> exists r, p = String c r.
Proof. destruct p; simpl; [discriminate|]. intros [= ->]. now eexists. Qed.

(** [strip] keeps every occurrence of a solid pattern. *)
Lemma contains_strip (p s : string) :
  solid p = true -> contains p s = true -> contains p (strip s) = true.
Proof.
  unfold solid. intros Hp H.
  destruct (first_char p) as [c1|] eqn:E1; [|discriminate].
  destruct (last_char p) as [c2|] eqn:E2; [|discriminate].
  apply andb_true_iff in Hp as [H1 H2].
  apply negb_true_iff in H1, H2.
  apply contains_inv in H as (a & b & ->).
  destruct (first_char_split _ _ E1) as [r Hr].
  destruct (last_char_split _ _ E2) as [x Hx].
  assert (L : exists a', lstrip (a ++ p ++ b) = a' ++ p ++ b).
  { rewrite Hr. simpl. now apply lstrip_app. }
  destruct L as [a' L].
  assert (R : rstrip (a' ++ p ++ b) = a' ++ p ++ rstrip b).
  { rewrite Hx, !append_assoc. simpl.
    rewrite <- (append_assoc a' x (String c2 b)), rstrip_app by assumption.
    now rewrite append_assoc. }
  unfold strip. rewrite L, R. apply contains_intro.
Qed.

End PyStrFacts.

(* ===================================================================== *)
(** * Facts about the gates *)
(* ===================================================================== *)

Module GateFacts.
Import PyStr PyStrFacts.

(** AWS: a pattern of the list that occurs in the command ends the loop
    with a refusal. *)
Lemma aws_scan_hit (patterns : list string) (p cl : string) :
  In p patterns -> contains p cl = true ->
  AWSMCPServer.scan patterns cl = false.
Proof.
  induction patterns as [|q ps IH]; simpl; [tauto|].
  intros [->|Hin] Hc.
  - now rewrite Hc.
  - destruct (contains q cl); [reflexivity | now apply IH].
Qed.

Lemma aws_hit (p command : string) :
  In p AWSMCPServer.dangerous_patterns ->
  contains p (lower command) = true ->
  AWSMCPServer._is_safe_command command = false.
Proof.
  intros Hin Hc. unfold AWSMCPServer._is_safe_command.
  now rewrite (aws_scan_hit _ _ _ Hin Hc).
Qed.

(** Azure: the same loop over its own list. *)
Lemma azure_scan_hit (patterns : list string) (p cl : string) :
  In p patterns -> contains p cl = true ->
  AzureMCPServer.scan patterns cl = false.
Proof.
  induction patterns as [|q ps IH]; simpl; [tauto|].
  intros [->|Hin] Hc.
  - now rewrite Hc.
  - destruct (contains q cl); [reflexivity | now apply IH].
Qed.

Lemma azure_hit (p command : string) :
  In p AzureMCPServer.dangerous_patterns ->
  contains p (lower command) = true ->
  AzureMCPServer._is_safe_command command = false.
Proof.
  intros Hin Hc. unfold AzureMCPServer._is_safe_command.
  now rewrite (azure_scan_hit _ _ _ Hin Hc).
Qed.

(** GCP: only a hit on ["delete"] can be skipped; a hit on any other
    pattern of the list ends the loop with a refusal. *)
Lemma gcp_scan_hit (patterns : list string) (p cl : string) :
  In p patterns -> p <> "delete" -> contains p cl = true ->
  GCPMCPServer.scan patterns cl = false.
Proof.
  induction patterns as [|q ps IH]; cbn [GCPMCPServer.scan In]; [tauto|].
  intros [->|Hin] Hne Hc.
  - rewrite Hc. apply String.eqb_neq in Hne. now rewrite Hne.
  - destruct (contains q cl); [|now apply IH].
    destruct (String.eqb q "delete" && any_in GCPMCPServer.safe_deletes cl);
      [now apply IH | reflexivity].
Qed.

Lemma gcp_hit (p command : string) :
  In p GCPMCPServer.dangerous_patterns -> p <> "delete" ->
  contains p (lower command) = true ->
  GCPMCPServer._is_safe_command command = false.
Proof.
  intros Hin Hne Hc. unfold GCPMCPServer._is_safe_command.
  now rewrite (gcp_scan_hit _ _ _ Hin Hne Hc).
Qed.

(** Every provider: a denylisted pattern other than ["delete"] that
    occurs in the lower-cased command makes the gate refuse. *)
Lemma provider_hit (provider : ProviderKind) (p command : string) :
  In p (dangerous_patterns provider) -> p <> "delete" ->
  contains p (lower command) = true ->
  is_safe provider command = false.
Proof.
  destruct provider; cbn [dangerous_patterns is_safe]; intros Hin Hne Hc;
    eauto using aws_hit, azure_hit, gcp_hit.
Qed.

(** A solid pattern in the lower-cased raw command is still there once
    the command is stripped, and the stripped command is not empty. *)
Lemma solid_survives (p raw : string) :
  solid p = true -> contains p (lower raw) = true ->
  contains p (lower (strip raw)) = true
  /\ PyStr.nonempty (strip raw) = true.
Proof.
  intros Hs Hc.
  assert (H : contains p (lower (strip raw)) = true).
  { rewrite <- strip_lower. now apply contains_strip. }
  split; [exact H|].
  assert (Hp : PyStr.nonempty p = true) by (now destruct p).
  pose proof (contains_nonempty _ _ H Hp) as Hn.
  now destruct (strip raw).
Qed.

Lemma evaluate_refused (raw : string) (provider : ProviderKind) :
  PyStr.nonempty (strip raw) = true ->
  is_safe provider (strip raw) = false ->
  evaluate raw provider = refused.
Proof. intros Hn H. unfold evaluate. now rewrite Hn, H. Qed.

End GateFacts.

(* ===================================================================== *)
(** * Properties of the policy gate *)
(* ===================================================================== *)

Section GateProperties.
Import PyStr PyStrFacts GateFacts.

Local Ltac in_list := cbn; repeat (first [left; reflexivity | right]).

(** C2.  For every provider, a command whose text contains [;], [|], [&&]
    or [>] is refused by [_is_safe_command] and gets the verdict Rejected
    from the pipeline; the delete exception of the GCP gate does not
    change this. *)
Theorem metachar_rejected (provider : ProviderKind) (raw m : string) :
  In m [";"; "|"; "&&"; ">"] ->
  contains m raw = true ->
  is_safe provider raw = false /\ evaluate raw provider = refused.
Proof.
  intros Hm Hc.
  assert (Hl : lower m = m /\ solid m = true /\ m <> "delete"
               /\ In m (dangerous_patterns provider)).
  { cbn in Hm. destruct Hm as [<-|[<-|[<-|[<-|[]]]]];
      (repeat split; [discriminate | destruct provider; in_list]). }
  destruct Hl as (Hlow & Hsolid & Hne & Hin).
  apply (contains_lower _ _ Hlow) in Hc.
  split; [now apply (provider_hit provider m) |].
  destruct (solid_survives _ _ Hsolid Hc) as [Hc' Hn].
  apply evaluate_refused; [exact Hn|].
  now apply (provider_hit provider m).
Qed.

Lemma metachar_rejected_witness :
  is_safe GCP "compute instances list --dry-run; delete" = false
  /\ evaluate "compute instances list --dry-run; delete" GCP = refused.
Proof.
  apply (metachar_rejected GCP
           "compute instances list --dry-run; delete" ";").
  - left; reflexivity.
  - reflexivity.
Defined.

(** C5.  The GCP gate allows [compute instances list --dry-run] and
    rejects [compute instances delete foo]. *)
Theorem gcp_examples :
  evaluate "compute instances list --dry-run" GCP = Allowed
  /\ evaluate "compute instances delete foo" GCP = refused.
Proof. split; reflexivity. Qed.

(** C8.  GCP, gsutil and bq: a command whose lower-cased text contains
    [sh] is refused, since the denylist entry ["sh"] is looked for as a
    substring; [compute snapshots list] is refused although
    ["snapshots list"] is in the gate's table of delete exceptions. *)
Theorem gcp_sh_rejected (command : string) :
  contains "sh" (lower command) = true ->
  GCPMCPServer._is_safe_command command = false
  /\ evaluate command GCP = refused
  /\ evaluate command GCS = refused
  /\ evaluate command BigQuery = refused
  /\ In "snapshots list" GCPMCPServer.safe_deletes
  /\ GCPMCPServer._is_safe_command "compute snapshots list" = false.
Proof.
  intros Hc.
  assert (Hin : In "sh" GCPMCPServer.dangerous_patterns) by in_list.
  assert (Hne : "sh" <> "delete") by discriminate.
  destruct (solid_survives "sh" command eq_refl Hc) as [Hc' Hn].
  pose proof (gcp_hit _ _ Hin Hne Hc') as Hs.
  split; [now apply gcp_hit with (p := "sh") |].
  repeat split; try (now apply evaluate_refused).
  in_list.
Qed.

Lemma gcp_sh_rejected_witness :
  GCPMCPServer._is_safe_command "compute ssl-policies describe SHared" = false
  /\ evaluate "compute ssl-policies describe SHared" GCP = refused
  /\ evaluate "compute ssl-policies describe SHared" GCS = refused
  /\ evaluate "compute ssl-policies describe SHared" BigQuery = refused
  /\ In "snapshots list" GCPMCPServer.safe_deletes
  /\ GCPMCPServer._is_safe_command "compute snapshots list" = false.
Proof.
  apply (gcp_sh_rejected "compute ssl-policies describe SHared").
  reflexivity.
Defined.

(** C9.  AWS: a command whose lower-cased text contains [rm] is refused,
    since the denylist entry ["rm"] is looked for as a substring of the
    whole command; so is every command that begins with
    [cloudformation]. *)
Theorem aws_rm_rejected (command : string) :
  contains "rm" (lower command) = true ->
  AWSMCPServer._is_safe_command command = false
  /\ evaluate command AWS = refused
  /\ (forall rest,
        AWSMCPServer._is_safe_command ("cloudformation" ++ rest) = false
        /\ evaluate ("cloudformation" ++ rest) AWS = refused).
Proof.
  assert (Hin : In "rm" AWSMCPServer.dangerous_patterns) by in_list.
  assert (G : forall c, contains "rm" (lower c) = true ->
              AWSMCPServer._is_safe_command c = false
              /\ evaluate c AWS = refused).
  { intros c Hc.
    destruct (solid_survives "rm" c eq_refl Hc) as [Hc' Hn].
    split; [now apply aws_hit with (p := "rm") |].
    apply evaluate_refused; [exact Hn|].
    now apply (aws_hit "rm"). }
  intros Hc. destruct (G _ Hc) as [G1 G2].
  repeat split; try assumption; apply G; rewrite lower_app;
    apply (contains_intro "rm" "cloudfo" ("ation" ++ lower rest)).
Qed.

Lemma aws_rm_rejected_witness :
  AWSMCPServer._is_safe_command "s3 ls s3://FiRMware-builds" = false
  /\ evaluate "s3 ls s3://FiRMware-builds" AWS = refused
  /\ (forall rest,
        AWSMCPServer._is_safe_command ("cloudformation" ++ rest) = false
        /\ evaluate ("cloudformation" ++ rest) AWS = refused).
Proof.
  apply (aws_rm_rejected "s3 ls s3://FiRMware-builds"). reflexivity.
Defined.

(** C6.  Azure: a command that contains [delete] in any form -- as a
    substring, as the word [ delete ] at any position, or as a trailing
    word -- is refused; there is no exception.  In particular
    [group delete --name foo] is rejected. *)
Theorem azure_delete_rejected (raw : string) :
  contains "delete" (lower raw) = true
  \/ contains " delete " (lower raw) = true
  \/ endswith (lower raw) " delete" = true ->
  AzureMCPServer._is_safe_command raw = false
  /\ evaluate raw Azure = refused
  /\ evaluate "group delete --name foo" Azure = refused.
Proof.
  intros H.
  assert (Hc : contains "delete" (lower raw) = true).
  { destruct H as [H|[H|H]]; [exact H | |].
    - now apply (contains_trans "delete" " delete ").
    - apply endswith_contains in H.
      now apply (contains_trans "delete" " delete"). }
  assert (Hin : In "delete" AzureMCPServer.dangerous_patterns) by in_list.
  destruct (solid_survives "delete" raw eq_refl Hc) as [Hc' Hn].
  split; [now apply (azure_hit "delete") |].
  split; [|reflexivity].
  apply evaluate_refused; [exact Hn|].
  now apply (azure_hit "delete").
Qed.

Lemma azure_delete_rejected_witness :
  AzureMCPServer._is_safe_command "storage blob show --name UnDeleted" = false
  /\ evaluate "storage blob show --name UnDeleted" Azure = refused
  /\ evaluate "group delete --name foo" Azure = refused.
Proof.
  apply (azure_delete_rejected "storage blob show --name UnDeleted").
  left. reflexivity.
Defined.

(** C4.  GCP, gsutil and bq: a command that contains [delete] is never
    allowed, with or without [list], [--dry-run] or [--help] in it: the
    denylist entry ["del"], which comes before ["delete"] and has no
    exception, occurs in every such command.  The exception coded for
    ["delete"] is never reached with effect. *)
Theorem gcp_delete_never_allowed (command : string) :
  contains "delete" (lower command) = true ->
  GCPMCPServer._is_safe_command command = false
  /\ evaluate command GCP = refused
  /\ evaluate command GCS = refused
  /\ evaluate command BigQuery = refused.
Proof.
  intros Hc.
  assert (Hd : contains "del" (lower command) = true)
    by now apply (contains_trans "del" "delete").
  assert (Hin : In "del" GCPMCPServer.dangerous_patterns) by in_list.
  assert (Hne : "del" <> "delete") by discriminate.
  destruct (solid_survives "del" command eq_refl Hd) as [Hc' Hn].
  pose proof (gcp_hit _ _ Hin Hne Hc') as Hs.
  split; [now apply (gcp_hit "del") |].
  repeat split; now apply evaluate_refused.
Qed.

Lemma gcp_delete_never_allowed_witness :
  GCPMCPServer._is_safe_command "compute instances delete foo --dry-run" = false
  /\ evaluate "compute instances delete foo --dry-run" GCP = refused
  /\ evaluate "compute instances delete foo --dry-run" GCS = refused
  /\ evaluate "compute instances delete foo --dry-run" BigQuery = refused.
Proof.
  apply (gcp_delete_never_allowed "compute instances delete foo --dry-run").
  reflexivity.
Defined.

End GateProperties.

(* ===================================================================== *)
(** * Facts about the tokenizer *)
(* ===================================================================== *)

Module ShlexFacts.
Import PyStr Shlex.

Lemma then_tokens_prepend (t : string) (ts : list string) r :
  then_tokens t (prepend ts r) = prepend (t :: ts) r.
Proof. now destruct r. Qed.

Lemma prepend_nil r : prepend [] r = r.
Proof. now destruct r. Qed.

Lemma then_tokens_ok (t : string) r (l : list string) :
  then_tokens t r = Ok l -> exists l', r = Ok l' /\ l = t :: l'.
Proof. destruct r; simpl; [intros [= <-]; eauto | discriminate]. Qed.

(** [escapedstate] is written on the way into an escape before it is
    read: outside an escape its value does not matter. *)
Lemma escapedstate_irrelevant (input : string) :
  forall st es1 es2 quoted token,
    (forall e, st <> InEscape e) ->
    read_tokens st es1 quoted token input
    = read_tokens st es2 quoted token input.
Proof.
  induction input as [|c input IH]; intros st es1 es2 quoted token Hst.
  - reflexivity.
  - destruct st as [| |q|e]; cbn [read_tokens].
    + destruct (is_whitespace c);
        [destruct (nonempty token || quoted);
         [reflexivity | now apply IH] |].
      destruct (is_escape c); [reflexivity|].
      destruct (is_quote c); now apply IH.
    + destruct (is_whitespace c);
        [destruct (nonempty token || quoted);
         [reflexivity | now apply IH] |].
      destruct (is_quote c); [now apply IH|].
      destruct (is_escape c); [reflexivity | now apply IH].
    + destruct (Ascii.eqb c q); [now apply IH|].
      destruct (is_escape c && is_escapedquote q);
        [reflexivity | now apply IH].
    + now destruct (Hst e).
Qed.

(** A text that tokenizes, followed by a whitespace character: its
    tokens come first, and the rest is tokenized afresh. *)
Lemma read_tokens_prefix (before : string) (w : ascii) (rest : string) :
  is_whitespace w = true ->
  forall st es quoted token ts,
    read_tokens st es quoted token before = Ok ts ->
    read_tokens st es quoted token (before ++ String w rest)
    = prepend ts (read_tokens Between Between false "" rest).
Proof.
  intros Hw.
  induction before as [|c before IH]; intros st es quoted token ts H.
  - cbn [append]. cbn [read_tokens] in *.
    assert (E : forall st', st' = Between \/ st' = InWord ->
              (if nonempty token || quoted
               then then_tokens token
                      (read_tokens Between Between false "" rest)
               else read_tokens Between es quoted token rest)
              = prepend (emit token quoted)
                  (read_tokens Between Between false "" rest)).
    { intros _ _. unfold emit.
      destruct (nonempty token || quoted) eqn:E.
      - now rewrite <- then_tokens_prepend, prepend_nil.
      - apply orb_false_iff in E as [Et ->].
        destruct token; [|discriminate]. rewrite prepend_nil.
        now apply escapedstate_irrelevant. }
    destruct st as [| |q|e]; try discriminate; injection H as <-;
      rewrite Hw; apply (E Between); auto.
  - cbn [append]. destruct st as [| |q|e]; cbn [read_tokens] in *.
    + destruct (is_whitespace c).
      * destruct (nonempty token || quoted); [|now apply IH].
        apply then_tokens_ok in H as (l' & H & ->).
        now rewrite (IH _ _ _ _ _ H), then_tokens_prepend.
      * destruct (is_escape c); [now apply IH|].
        destruct (is_quote c); now apply IH.
    + destruct (is_whitespace c).
      * destruct (nonempty token || quoted); [|now apply IH].
        apply then_tokens_ok in H as (l' & H & ->).
        now rewrite (IH _ _ _ _ _ H), then_tokens_prepend.
      * destruct (is_quote c); [now apply IH|].
        destruct (is_escape c); now apply IH.
    + destruct (Ascii.eqb c q); [now apply IH|].
      destruct (is_escape c && is_escapedquote q); now apply IH.
    + now apply IH.
Qed.

(** Inside quotes the text of a properly quoted argument is copied to
    the token, up to the closing quote. *)
Lemma read_quoted (q : ascii) (arg : string) :
  plain q arg = true ->
  forall es quoted token rest,
    read_tokens (InQuote q) es quoted token (arg ++ String q rest)
    = read_tokens InWord es true (token ++ arg) rest.
Proof.
  induction arg as [|c arg IH]; intros Hp es quoted token rest.
  - cbn [append read_tokens]. rewrite Ascii.eqb_refl.
    now rewrite PyStrFacts.append_nil_r.
  - cbn [plain] in Hp.
    apply andb_true_iff in Hp as [Hp Hrest].
    apply andb_true_iff in Hp as [Hq Hesc].
    apply negb_true_iff in Hq, Hesc.
    cbn [append read_tokens]. rewrite Hq, Hesc, (IH Hrest).
    unfold push. now rewrite PyStrFacts.append_assoc.
Qed.

(** The binary's name is the first token of the full command. *)
Lemma split_binary (provider : ProviderKind) (command : string) :
  split (binary provider ++ " " ++ command)
  = then_tokens (binary provider) (split command).
Proof. destruct provider; reflexivity. Qed.

End ShlexFacts.

Module WordFacts.
Import PyStr Shlex ShlexFacts Word.

Lemma nonempty_app (a b : string) :
  nonempty a = true -> nonempty (a ++ b) = true.
Proof. now destruct a. Qed.

(** Between double quotes, up to the closing quote. *)
Lemma read_body (body : list dq_piece) :
  forallb dq_ok body = true ->
  forall es quoted token rest,
    read_tokens (InQuote dquote) es quoted token
                (body_text body ++ String dquote rest)
    = read_tokens InWord es true (token ++ body_value body) rest.
Proof.
  induction body as [|p body IH]; intros Hok es quoted token rest.
  - cbn [body_text body_value append read_tokens].
    rewrite Ascii.eqb_refl. now rewrite PyStrFacts.append_nil_r.
  - cbn [forallb] in Hok. apply andb_true_iff in Hok as [Hp Hok].
    cbn [body_text body_value]. rewrite PyStrFacts.append_assoc.
    destruct p as [c|c].
    + cbn [dq_ok] in Hp. apply andb_true_iff in Hp as [Hq He].
      apply negb_true_iff in Hq, He.
      cbn [dq_text dq_value append read_tokens].
      rewrite Hq, He. cbn [andb].
      rewrite (IH Hok). unfold push.
      now rewrite PyStrFacts.append_assoc.
    + cbn [dq_text dq_value append].
      change (read_tokens (InQuote dquote) es quoted token
                (String backslash
                   (String c (body_text body ++ String dquote rest))))
        with (read_tokens (InQuote dquote) (InQuote dquote) true
                (push (if negb (Ascii.eqb c backslash)
                          && negb (Ascii.eqb c dquote)
                       then push token backslash else token) c)
                (body_text body ++ String dquote rest)).
      rewrite (IH Hok).
      rewrite (escapedstate_irrelevant rest InWord (InQuote dquote) es)
        by discriminate.
      f_equal. unfold push.
      destruct (Ascii.eqb c backslash), (Ascii.eqb c dquote);
        cbn [negb andb orb]; now rewrite !PyStrFacts.append_assoc.
Qed.

(** One piece, at the start of a word or inside it. *)
Lemma read_piece (p : piece) :
  ok p = true ->
  forall st es quoted token rest,
    st = InWord \/ (st = Between /\ token = "") ->
    read_tokens st es quoted token (text p ++ rest)
    = read_tokens InWord es (quoted || in_quotes p)
                  (token ++ piece_value p) rest.
Proof.
  intros Hok st es quoted token rest Hst.
  destruct p as [c|c|s|body]; cbn [ok] in Hok;
    cbn [text piece_value in_quotes append].
  - apply andb_true_iff in Hok as [Hok He].
    apply andb_true_iff in Hok as [Hw Hq].
    apply negb_true_iff in Hw, Hq, He. rewrite orb_false_r.
    destruct Hst as [->|[-> ->]]; cbn [read_tokens];
      now rewrite Hw, ?He, Hq, ?He.
  - rewrite orb_false_r.
    destruct Hst as [->|[-> ->]];
      [ change (read_tokens InWord es quoted token
                  (String backslash (String c rest)))
          with (read_tokens InWord InWord quoted (push token c) rest)
      | change (read_tokens Between es quoted ""
                  (String backslash (String c rest)))
          with (read_tokens InWord InWord quoted (push "" c) rest) ];
      now apply escapedstate_irrelevant.
  - rewrite orb_true_r, PyStrFacts.append_assoc. cbn [append].
    destruct Hst as [->|[-> ->]];
      [ change (read_tokens InWord es quoted token
                  (String squote (s ++ String squote rest)))
          with (read_tokens (InQuote squote) es quoted token
                  (s ++ String squote rest))
      | change (read_tokens Between es quoted ""
                  (String squote (s ++ String squote rest)))
          with (read_tokens (InQuote squote) es quoted ""
                  (s ++ String squote rest)) ];
      now rewrite (read_quoted squote s Hok).
  - rewrite orb_true_r, PyStrFacts.append_assoc. cbn [append].
    destruct Hst as [->|[-> ->]];
      [ change (read_tokens InWord es quoted token
                  (String dquote (body_text body ++ String dquote rest)))
          with (read_tokens (InQuote dquote) es quoted token
                  (body_text body ++ String dquote rest))
      | change (read_tokens Between es quoted ""
                  (String dquote (body_text body ++ String dquote rest)))
          with (read_tokens (InQuote dquote) es quoted ""
                  (body_text body ++ String dquote rest)) ];
      now rewrite (read_body body Hok).
Qed.

(** The pieces of a word, one after the other. *)
Lemma read_word (word : list piece) :
  forallb ok word = true ->
  forall es quoted token rest,
    read_tokens InWord es quoted token (render word ++ rest)
    = read_tokens InWord es (quoted || existsb in_quotes word)
                  (token ++ value word) rest.
Proof.
  induction word as [|p word IH]; intros Hok es quoted token rest.
  - cbn [render value existsb append].
    now rewrite orb_false_r, PyStrFacts.append_nil_r.
  - cbn [forallb] in Hok. apply andb_true_iff in Hok as [Hp Hok].
    cbn [render value existsb]. rewrite PyStrFacts.append_assoc.
    rewrite (read_piece p Hp) by auto.
    rewrite (IH Hok). now rewrite orb_assoc, PyStrFacts.append_assoc.
Qed.

(** A piece leaves something to hand back: a character, or the fact
    that quotes were seen. *)
Lemma piece_counts (p : piece) :
  ok p = true -> nonempty (piece_value p) || in_quotes p = true.
Proof.
  intros _. destruct p; cbn [piece_value in_quotes nonempty];
    rewrite ?orb_true_r; reflexivity.
Qed.

(** A word at the start of a text is one token: its value. *)
Lemma split_word (word : list piece) (after : string) (ta : list string) :
  word <> [] -> forallb ok word = true -> delimited after = true ->
  split after = Ok ta ->
  split (render word ++ after) = Ok (value word :: ta).
Proof.
  intros Hne Hok Hd Ha. destruct word as [|p word]; [now destruct Hne|].
  cbn [forallb] in Hok. apply andb_true_iff in Hok as [Hp Hok].
  unfold split. cbn [render value]. rewrite PyStrFacts.append_assoc.
  rewrite (read_piece p Hp) by auto.
  rewrite (read_word word Hok). cbn [append orb].
  assert (E : nonempty (piece_value p ++ value word)
              || (in_quotes p || existsb in_quotes word) = true).
  { pose proof (piece_counts p Hp) as H.
    apply orb_true_iff in H as [H|H].
    - now rewrite (nonempty_app _ _ H).
    - rewrite H. now rewrite orb_true_r. }
  destruct after as [|w after'].
  - cbn [read_tokens]. unfold emit. rewrite E.
    unfold split in Ha. cbn in Ha. now injection Ha as <-.
  - cbn [delimited] in Hd. unfold split in Ha.
    cbn [read_tokens] in Ha |- *. rewrite Hd in Ha |- *.
    cbn [nonempty orb] in Ha. now rewrite E, Ha.
Qed.

End WordFacts.

(* ===================================================================== *)
(** * Facts about the handlers *)
(* ===================================================================== *)

Module HandlerFacts.
Import Proc.

#[local] Opaque Utf8.decode PyStr.str_of_int.

(** Every handler is its gate followed by the shared executor. *)
Lemma handler_guarded (provider : ProviderKind) :
  handler provider = guarded (is_safe provider) (binary provider).
Proof.
  destruct provider; cbn [handler is_safe binary];
    unfold _execute_aws_command, _execute_azure_command,
      _execute_gcloud_command, _execute_gsutil_command, _execute_bq_command;
    reflexivity.
Qed.

(** A rejected command: the verdict's reason is the whole response, and
    nothing happens. *)
Lemma handler_rejected provider raw t b w reason :
  evaluate raw provider = Rejected reason ->
  handler provider (Args (Some raw) t) b w = (Text reason, w).
Proof.
  rewrite handler_guarded. unfold evaluate, guarded. cbn [command get].
  destruct (negb (PyStr.nonempty (PyStr.strip raw))); [now intros [= <-]|].
  destruct (negb (is_safe provider (PyStr.strip raw)));
    [now intros [= <-] | discriminate].
Qed.

(** An allowed command goes to the executor with the binary's name in
    front. *)
Lemma handler_allowed provider raw t b :
  evaluate raw provider = Allowed ->
  handler provider (Args (Some raw) t) b
  = _execute_command (binary provider ++ " " ++ PyStr.strip raw)
                     (get t 30%Z) b.
Proof.
  rewrite handler_guarded. unfold evaluate, guarded. cbn [command get timeout].
  destruct (negb (PyStr.nonempty (PyStr.strip raw))); [discriminate|].
  destruct (negb (is_safe provider (PyStr.strip raw)));
    [discriminate | reflexivity].
Qed.

(** A command that does not tokenize is reported and never spawned. *)
Lemma execute_unparsed full_command t b w msg :
  Shlex.split full_command = Err msg ->
  _execute_command full_command t b w
  = (Text ("Error parsing command: " ++ msg), w).
Proof. intros H. unfold _execute_command, try_except. now rewrite H. Qed.

(** The executor's one process call is the spawn of the argv vector. *)
Lemma execute_events full_command t b w argv :
  Shlex.split full_command = Ok argv ->
  events (snd (_execute_command full_command t b w))
  = (events w ++ [Exec argv])%list.
Proof.
  intros H. unfold _execute_command, try_except, bind. rewrite H.
  destruct b as [msg|rc out err| |]; cbn; [reflexivity| |reflexivity..].
  unfold decode.
  destruct out as [|o out]; destruct err as [|e err]; cbn;
    repeat match goal with
           | |- context [Utf8.decode ?x] => destruct (Utf8.decode x)
           end; reflexivity.
Qed.

(** At the timeout: the report, the spawn as only event, and the child
    as the spawn left it. *)
Lemma execute_hangs full_command t w argv :
  Shlex.split full_command = Ok argv ->
  _execute_command full_command t Hangs w
  = (timed_out t, World (events w ++ [Exec argv]) Running).
Proof.
  intros H. unfold _execute_command, try_except, bind. now rewrite H.
Qed.

(** The wait that raises on the value of the timeout: the report of an
    execution error, the spawn as only event, and the child as the spawn
    left it. *)
Lemma execute_unwaited full_command t w argv :
  Shlex.split full_command = Ok argv ->
  _execute_command full_command t Unwaited w
  = (Failure "Error executing command: " OverflowError,
     World (events w ++ [Exec argv]) Running).
Proof.
  intros H. unfold _execute_command, try_except, bind. now rewrite H.
Qed.

(** A finished command whose pipes decode. *)
Lemma execute_exits full_command t w argv rc out err o e :
  Shlex.split full_command = Ok argv ->
  Utf8.decode out = Some o -> Utf8.decode err = Some e ->
  fst (_execute_command full_command t (Exits rc out err) w)
  = Report full_command rc
      (match out with [] => None | _ => Some o end)
      (match err with [] => None | _ => Some e end).
Proof.
  intros H Ho He. unfold _execute_command, try_except, bind. rewrite H.
  cbn. unfold decode.
  destruct out as [|b0 out]; destruct err as [|b1 err]; cbn;
    rewrite ?Ho, ?He; reflexivity.
Qed.

(** A finished command with a pipe that does not decode. *)
Lemma execute_undecodable full_command t w argv rc out err :
  Shlex.split full_command = Ok argv ->
  Utf8.decode out = None \/ Utf8.decode err = None ->
  fst (_execute_command full_command t (Exits rc out err) w)
  = Failure "Error executing command: " UnicodeDecodeError.
Proof.
  intros H Hd. unfold _execute_command, try_except, bind. rewrite H.
  cbn. unfold decode.
  destruct out as [|b0 out]; destruct err as [|b1 err];
    try (destruct Hd as [Hd|Hd]; discriminate Hd).
  - destruct Hd as [Hd|Hd]; [discriminate Hd|]. now rewrite Hd.
  - destruct Hd as [Hd|Hd]; [|discriminate Hd]. now rewrite Hd.
  - destruct Hd as [Hd|Hd].
    + now rewrite Hd.
    + destruct (Utf8.decode (b0 :: out)); cbn; now rewrite ?Hd.
Qed.

(** The MCP pipelines: whatever a handler is asked and whatever the child
    does, it spawns at most once, from the argv vector that [shlex.split]
    gave for the binary's name followed by the command -- the binary's
    name is its first element. *)
Lemma pipeline_spawns_argv provider arguments b :
  let raw := get (command arguments) "" in
  let w := snd (handler provider arguments b initial) in
  events w = []
  \/ exists tail,
       command_spec raw provider = Ok (binary provider :: tail)
       /\ events w = [Exec (binary provider :: tail)].
Proof.
  cbn zeta.
  assert (E0 : handler provider arguments b
               = handler provider
                   (Args (Some (get (command arguments) "")) (timeout arguments))
                   b).
  { rewrite handler_guarded. now destruct arguments as [[raw|] t]. }
  rewrite E0. clear E0.
  set (raw := get (command arguments) ""). set (t := timeout arguments).
  destruct (evaluate raw provider) as [|reason] eqn:E.
  - rewrite (handler_allowed _ _ _ _ E).
    unfold command_spec.
    destruct (Shlex.split (binary provider ++ " " ++ PyStr.strip raw))
      as [argv|msg] eqn:S.
    + right. rewrite (execute_events _ _ _ _ _ S).
      rewrite ShlexFacts.split_binary in S.
      apply ShlexFacts.then_tokens_ok in S as (tail & _ & ->).
      now exists tail.
    + left. now rewrite (execute_unparsed _ _ _ _ _ S).
  - left. now rewrite (handler_rejected _ _ _ _ _ _ E).
Qed.

(** So no MCP handler ever starts a shell, and none signals its child. *)
Lemma pipeline_never_shell provider arguments b :
  let w := snd (handler provider arguments b initial) in
  (forall cmd, ~ In (Shell cmd) (events w)) /\ ~ In Kill (events w).
Proof.
  cbn zeta.
  destruct (pipeline_spawns_argv provider arguments b) as [E|(tail & _ & E)];
    rewrite E; (split; [intros cmd H | intros H]); cbn in H;
    repeat (destruct H as [H|H]; try discriminate H); exact H.
Qed.

End HandlerFacts.

(* ===================================================================== *)
(** * Properties of the executor *)
(* ===================================================================== *)

Section ExecutorProperties.
Import Proc HandlerFacts ShlexFacts.

(** C10.  An allowed command that contains a properly quoted argument:
    a word made of quoted and unquoted pieces -- a text between single
    quotes, a text between double quotes with its backslash escapes, a
    character behind a backslash, a character that needs no quoting --
    that follows a whitespace character of the full command and is
    followed by whitespace or by nothing.  The argv of the full command
    (the binary's name prepended) is the tokens of the text before the
    word, the argument as exactly one token, whatever spaces it holds,
    and the tokens of the text after it; its first element is the
    binary's name.  That argv is what the handler spawns, whatever the
    child then does, and the spawn of the vector is the only process
    call: no shell reads the command. *)
Theorem quoted_argument_is_one_token
        (provider : ProviderKind) (raw lead after : string) (w : ascii)
        (p : Word.piece) (ps : list Word.piece) (tl ta : list string) :
  evaluate raw provider = Allowed ->
  binary provider ++ " " ++ PyStr.strip raw
  = lead ++ String w (Word.render (p :: ps) ++ after) ->
  Shlex.is_whitespace w = true ->
  forallb Word.ok (p :: ps) = true ->
  Shlex.delimited after = true ->
  Shlex.split lead = Ok tl ->
  Shlex.split after = Ok ta ->
  command_spec raw provider = Ok (tl ++ Word.value (p :: ps) :: ta)%list
  /\ (exists rest,
        (tl ++ Word.value (p :: ps) :: ta)%list = binary provider :: rest)
  /\ forall t b,
       events (snd (handler provider (Args (Some raw) t) b initial))
       = [Exec (tl ++ Word.value (p :: ps) :: ta)%list].
Proof.
  intros Hev Hfull Hw Hok Hd Hl Ha.
  assert (S : command_spec raw provider
              = Ok (tl ++ Word.value (p :: ps) :: ta)%list).
  { unfold command_spec. rewrite Hfull. unfold Shlex.split at 1.
    rewrite (read_tokens_prefix lead w _ Hw _ _ _ _ _ Hl).
    fold (Shlex.split (Word.render (p :: ps) ++ after)).
    rewrite (WordFacts.split_word (p :: ps) after ta); auto.
    discriminate. }
  split; [exact S|]. split.
  - unfold command_spec in S. rewrite split_binary in S.
    apply then_tokens_ok in S as (rest & _ & E). eauto.
  - intros t b. rewrite (handler_allowed _ _ _ _ Hev).
    now rewrite (execute_events _ _ _ _ _ S).
Qed.

Lemma quoted_argument_is_one_token_witness :
  let word :=
    [Word.DQ [Word.DChar "a"; Word.DChar " "; Word.DEsc Shlex.dquote;
              Word.DChar " "; Word.DChar "b"]] in
  let raw := "s3 ls " ++ Word.render word in
  let argv := ["aws"; "s3"; "ls"; "a " ++ String Shlex.dquote " b"] in
  command_spec raw AWS = Ok argv
  /\ (exists rest, argv = "aws" :: rest)
  /\ forall t b,
       events (snd (handler AWS (Args (Some raw) t) b initial))
       = [Exec argv].
Proof.
  cbv zeta.
  apply (quoted_argument_is_one_token AWS
           ("s3 ls "
            ++ Word.render
                 [Word.DQ [Word.DChar "a"; Word.DChar " ";
                           Word.DEsc Shlex.dquote;
                           Word.DChar " "; Word.DChar "b"]])
           "aws s3 ls" "" " "%char
           (Word.DQ [Word.DChar "a"; Word.DChar " "; Word.DEsc Shlex.dquote;
                     Word.DChar " "; Word.DChar "b"])
           [] ["aws"; "s3"; "ls"] []);
    reflexivity.
Defined.

(** C1.  The HTTP route [/run-aws] hands the request's command to a shell
    as one string: its process call is [Shell command], for every command,
    so also for [aws s3 ls; id], where the shell runs [id] as a second
    command.  (The MCP handlers spawn from the argv vector only:
    [pipeline_spawns_argv], [pipeline_never_shell].) *)
Theorem run_aws_spawns_through_shell
        (command : string) (returncode : Z) (output : list byte) :
  events (snd (run_aws command returncode output initial)) = [Shell command]
  /\ events (snd (run_aws "aws s3 ls; id" 0 [] initial))
     = [Shell "aws s3 ls; id"].
Proof.
  split; [|reflexivity].
  unfold run_aws. now destruct (Utf8.decode output).
Qed.

(** C3, as the specification states it, fails: after a timeout the child
    of [aws s3 ls] is still running. *)
Lemma timeout_terminates_child_fails : ~ timeout_terminates_child.
Proof.
  intros H.
  specialize (H AWS "s3 ls" None ["aws"; "s3"; "ls"] eq_refl eq_refl).
  cbv in H. destruct H as [_ H]. discriminate H.
Qed.

(** C3, amended.  When an allowed command outlives its timeout, the
    handler returns the text [Error: Command timed out after <timeout>
    seconds]; the one process call it has made is the spawn, nothing
    terminates the child, and the child is still running when the
    response is returned. *)
Theorem timeout_leaves_child_running
        (provider : ProviderKind) (raw : string) (t : option Z)
        (argv : list string) :
  evaluate raw provider = Allowed ->
  command_spec raw provider = Ok argv ->
  let '(response, w) :=
    handler provider (Args (Some raw) t) Hangs initial in
  response = Text ("Error: Command timed out after "
                   ++ PyStr.str_of_int (get t 30%Z) ++ " seconds")
  /\ events w = [Exec argv]
  /\ child_alive w = true.
Proof.
  intros Hev Hs. rewrite (handler_allowed _ _ _ _ Hev).
  unfold command_spec in Hs. rewrite (execute_hangs _ _ _ _ Hs).
  repeat split.
Qed.

Lemma timeout_leaves_child_running_witness :
  let '(response, w) :=
    handler Azure (Args (Some "vm list") (Some 10%Z)) Hangs initial in
  response = Text "Error: Command timed out after 10 seconds"
  /\ events w = [Exec ["az"; "vm"; "list"]]
  /\ child_alive w = true.
Proof.
  exact (timeout_leaves_child_running Azure "vm list" (Some 10%Z)
           ["az"; "vm"; "list"] eq_refl eq_refl).
Defined.

(** C7, as the specification states it, fails: with the byte [0xFF] on
    its standard output, a finished [aws s3 ls] yields the report of an
    execution error. *)
Lemma decoding_falls_back_fails : ~ decoding_falls_back.
Proof.
  intros H.
  destruct (H "aws s3 ls" ["aws"; "s3"; "ls"] 30%Z 0%Z [xff] [] initial
              eq_refl) as (output & error & E).
  cbv in E. discriminate E.
Qed.

(** C7, amended.  Decoding is strict and its failure is caught: a
    finished command whose standard output and standard error both decode
    as UTF-8 yields the report of the command with the decoded texts; if
    either does not decode, the handler returns the text
    [Error executing command: ...] of the decoding error instead.  No
    exception leaves the handler, and no replacement decoding is made. *)
Theorem decoding_is_strict
        (full_command : string) (argv : list string) (t returncode : Z)
        (stdout stderr : list byte) (w : world) :
  Shlex.split full_command = Ok argv ->
  let response :=
    fst (_execute_command full_command t
           (Exits returncode stdout stderr) w) in
  match Utf8.decode stdout, Utf8.decode stderr with
  | Some output, Some error =>
      response
      = Report full_command returncode
          (match stdout with [] => None | _ => Some output end)
          (match stderr with [] => None | _ => Some error end)
  | _, _ =>
      response = Failure "Error executing command: " UnicodeDecodeError
  end.
Proof.
  intros Hs. cbn zeta.
  destruct (Utf8.decode stdout) as [output|] eqn:Ho.
  - destruct (Utf8.decode stderr) as [error|] eqn:He.
    + now apply execute_exits with (argv := argv).
    + apply execute_undecodable with (argv := argv); auto.
  - apply execute_undecodable with (argv := argv); auto.
Qed.

Lemma decoding_is_strict_witness :
  fst (_execute_command "aws s3 ls" 30 (Exits 0 [xff] []) initial)
  = Failure "Error executing command: " UnicodeDecodeError.
Proof.
  exact (decoding_is_strict "aws s3 ls" ["aws"; "s3"; "ls"] 30 0 [xff] []
           initial eq_refl).
Defined.

End ExecutorProperties.

(* ===================================================================== *)
(** * Further facts about strings and gates *)
(* ===================================================================== *)

Module MoreFacts.
Import PyStr PyStrFacts GateFacts.

Lemma any_in_false (ps : list string) (s p : string) :
  any_in ps s = false -> In p ps -> contains p s = false.
Proof.
  unfold any_in. intros H Hin.
  destruct (contains p s) eqn:E; [|reflexivity].
  assert (existsb (fun q => contains q s) ps = true)
    by (apply existsb_exists; eauto).
  congruence.
Qed.

Lemma any_in_true (ps : list string) (s : string) :
  any_in ps s = true -> exists p, In p ps /\ contains p s = true.
Proof. unfold any_in. intros H. now apply existsb_exists in H. Qed.

Lemma any_in_intro (ps : list string) (s p : string) :
  In p ps -> contains p s = true -> any_in ps s = true.
Proof. intros Hin Hc. unfold any_in. apply existsb_exists. eauto. Qed.

(** The plain loops are the negation of [any]. *)
Lemma aws_scan_any (ps : list string) (cl : string) :
  AWSMCPServer.scan ps cl = negb (any_in ps cl).
Proof.
  induction ps as [|p ps IH]; cbn [AWSMCPServer.scan]; [reflexivity|].
  unfold any_in in *. cbn [existsb].
  now destruct (contains p cl).
Qed.

Lemma azure_scan_any (ps : list string) (cl : string) :
  AzureMCPServer.scan ps cl = negb (any_in ps cl).
Proof.
  induction ps as [|p ps IH]; cbn [AzureMCPServer.scan]; [reflexivity|].
  unfold any_in in *. cbn [existsb].
  now destruct (contains p cl).
Qed.

Lemma gcp_scan_no_hit (ps : list string) (cl : string) :
  any_in ps cl = false -> GCPMCPServer.scan ps cl = true.
Proof.
  induction ps as [|p ps IH]; cbn [GCPMCPServer.scan]; [reflexivity|].
  unfold any_in in *. cbn [existsb]. intros H.
  apply orb_false_iff in H as [-> H]. now apply IH.
Qed.

(** The GCP loop over its own list: the exception changes nothing. *)
Lemma gcp_scan_any (cl : string) :
  GCPMCPServer.scan GCPMCPServer.dangerous_patterns cl
  = negb (any_in GCPMCPServer.dangerous_patterns cl).
Proof.
  destruct (any_in GCPMCPServer.dangerous_patterns cl) eqn:A.
  - apply any_in_true in A as (p & Hin & Hc). cbn [negb].
    destruct (String.eqb_spec p "delete") as [->|Hne].
    + apply (gcp_scan_hit _ "del"); [| discriminate |].
      * cbn. repeat (first [left; reflexivity | right]).
      * now apply (contains_trans "del" "delete").
    + now apply (gcp_scan_hit _ p).
  - now apply gcp_scan_no_hit.
Qed.

(** The test for two leading dashes adds nothing to the test for one. *)
Lemma dash_test (c : string) :
  startswith c "-" || startswith c "--" = startswith c "-".
Proof.
  destruct c as [|x c]; [reflexivity|]. cbn [startswith].
  destruct (Ascii.eqb "-" x); [|reflexivity].
  cbn [andb orb]. reflexivity.
Qed.

Lemma lower_char_idem (c : ascii) : lower_char (lower_char c) = lower_char c.
Proof. destruct c as [[] [] [] [] [] [] [] []]; reflexivity. Qed.

Lemma lower_idem (s : string) : lower (lower s) = lower s.
Proof.
  induction s as [|c s IH]; cbn [lower]; [reflexivity|].
  now rewrite lower_char_idem, IH.
Qed.

Lemma caseless_dash : caseless "-".
Proof. intros c. destruct c as [[] [] [] [] [] [] [] []]; reflexivity. Qed.

Lemma caseless_dollar : caseless "$".
Proof. intros c. destruct c as [[] [] [] [] [] [] [] []]; reflexivity. Qed.

Lemma caseless_paren : caseless "(".
Proof. intros c. destruct c as [[] [] [] [] [] [] [] []]; reflexivity. Qed.

Lemma caseless_backquote : caseless "`".
Proof. intros c. destruct c as [[] [] [] [] [] [] [] []]; reflexivity. Qed.

Lemma caseless_brace : caseless "{".
Proof. intros c. destruct c as [[] [] [] [] [] [] [] []]; reflexivity. Qed.

Lemma caseless_backslash : caseless "\".
Proof. intros c. destruct c as [[] [] [] [] [] [] [] []]; reflexivity. Qed.

(** Lower-casing neither adds nor removes an occurrence of a pattern made
    of caseless characters. *)
Lemma startswith_lower (p : string) :
  Forall caseless (chars p) ->
  forall s, startswith (lower s) p = startswith s p.
Proof.
  induction p as [|a p IH]; intros Hp s; [reflexivity|].
  cbn [chars] in Hp. inversion Hp as [|? ? Ha Hp']; subst.
  destruct s as [|c s]; [reflexivity|].
  cbn [lower startswith]. now rewrite Ha, (IH Hp').
Qed.

Lemma contains_lower_caseless (p s : string) :
  Forall caseless (chars p) -> contains p (lower s) = contains p s.
Proof.
  intros Hp. induction s as [|c s IH].
  - cbn [lower contains]. now rewrite <- (startswith_lower p Hp "").
  - change (lower (String c s)) with (String (lower_char c) (lower s)).
    cbn [contains]. rewrite IH.
    change (String (lower_char c) (lower s)) with (lower (String c s)).
    now rewrite (startswith_lower p Hp).
Qed.

Lemma markers_lower (provider : ProviderKind) (c : string) :
  any_in (substitution_markers provider) (lower c)
  = any_in (substitution_markers provider) c.
Proof.
  assert (G : any_in [ "$("; "`"; "${"; "\" ] (lower c)
              = any_in [ "$("; "`"; "${"; "\" ] c).
  { unfold any_in. cbn [existsb].
    rewrite !contains_lower_caseless; [reflexivity | ..];
      cbn [chars]; repeat constructor;
      auto using caseless_dollar, caseless_paren, caseless_backquote,
        caseless_brace, caseless_backslash. }
  destruct provider; cbn [substitution_markers]; auto.
Qed.

(** Whitespace around a command. *)
Lemma lstrip_all_space (pad : string) : all_space pad = true -> lstrip pad = "".
Proof.
  unfold all_space. induction pad as [|c pad IH]; cbn [chars forallb lstrip];
    [reflexivity|].
  intros H. apply andb_true_iff in H as [-> H]. now apply IH.
Qed.

Lemma rstrip_all_space (pad : string) : all_space pad = true -> rstrip pad = "".
Proof.
  unfold all_space. induction pad as [|c pad IH]; cbn [chars forallb rstrip];
    [reflexivity|].
  intros H. apply andb_true_iff in H as [Hc H]. now rewrite (IH H), Hc.
Qed.

Lemma lstrip_pad (pad s : string) :
  all_space pad = true -> lstrip (pad ++ s) = lstrip s.
Proof.
  unfold all_space. induction pad as [|c pad IH]; cbn [chars forallb append];
    [reflexivity|].
  intros H. apply andb_true_iff in H as [Hc H].
  cbn [lstrip]. rewrite Hc. now apply IH.
Qed.

Lemma rstrip_pad (s pad : string) :
  all_space pad = true -> rstrip (s ++ pad) = rstrip s.
Proof.
  intros H. induction s as [|c s IH]; cbn [append].
  - now apply rstrip_all_space.
  - cbn [rstrip]. now rewrite IH.
Qed.

Lemma lstrip_app_pad (s pad : string) :
  all_space pad = true ->
  lstrip (s ++ pad) = lstrip s ++ lstrip (if all_space s then "" else pad)
  \/ lstrip (s ++ pad) = lstrip s ++ pad.
Proof.
  intros H. induction s as [|c s IH]; cbn [append lstrip].
  - left. rewrite (lstrip_all_space _ H). reflexivity.
  - destruct (isspace c) eqn:Hc; [|now right].
    destruct IH as [IH|IH]; [|now right].
    left. rewrite IH. unfold all_space. cbn [chars forallb]. now rewrite Hc.
Qed.

Lemma strip_pad (p1 s p2 : string) :
  all_space p1 = true -> all_space p2 = true ->
  strip (p1 ++ s ++ p2) = strip s.
Proof.
  intros H1 H2. unfold strip. rewrite (lstrip_pad _ _ H1).
  destruct (lstrip_app_pad s p2 H2) as [E|E]; rewrite E.
  - apply rstrip_pad. destruct (all_space s); [reflexivity|].
    now rewrite (lstrip_all_space _ H2).
  - now apply rstrip_pad.
Qed.

Lemma strip_all_space (s : string) : all_space s = true -> strip s = "".
Proof. intros H. unfold strip. now rewrite (lstrip_all_space _ H). Qed.

Lemma strip_keeps_head (c : ascii) (s : string) :
  isspace c = false -> exists r, strip (String c s) = String c r.
Proof.
  intros Hc. unfold strip. cbn [lstrip]. rewrite Hc. cbn [rstrip].
  destruct (rstrip s); [rewrite Hc|]; eauto.
Qed.

End MoreFacts.

(* ===================================================================== *)
(** * Further properties of the policy gate *)
(* ===================================================================== *)

Section FurtherGateProperties.
Import PyStr PyStrFacts GateFacts MoreFacts.

Local Ltac in_list := cbn; repeat (first [left; reflexivity | right]).

Lemma aws_rule (command : string) :
  AWSMCPServer._is_safe_command command = negb (denied AWS command).
Proof.
  unfold denied, AWSMCPServer._is_safe_command.
  cbn [dangerous_patterns substitution_markers]. cbv zeta.
  rewrite aws_scan_any, negb_involutive, dash_test.
  destruct (any_in AWSMCPServer.dangerous_patterns (lower command));
    [reflexivity|].
  now destruct (startswith command "-").
Qed.

Lemma azure_rule (command : string) :
  AzureMCPServer._is_safe_command command = negb (denied Azure command).
Proof.
  unfold denied, AzureMCPServer._is_safe_command.
  cbn [dangerous_patterns substitution_markers]. cbv zeta.
  rewrite azure_scan_any, negb_involutive, dash_test.
  destruct (any_in AzureMCPServer.dangerous_patterns (lower command)) eqn:A;
    [reflexivity|].
  destruct (startswith command "-"); [reflexivity|].
  assert (Hd : contains "delete" (lower command) = false)
    by (apply (any_in_false _ _ _ A); in_list).
  assert (H1 : contains " delete " (lower command) = false).
  { destruct (contains " delete " (lower command)) eqn:E; [|reflexivity].
    rewrite (contains_trans "delete" " delete " _ eq_refl E) in Hd.
    discriminate Hd. }
  assert (H2 : endswith (lower command) " delete" = false).
  { destruct (endswith (lower command) " delete") eqn:E; [|reflexivity].
    apply endswith_contains in E.
    rewrite (contains_trans "delete" " delete" _ eq_refl E) in Hd.
    discriminate Hd. }
  now rewrite H1, H2.
Qed.

Lemma gcp_rule (command : string) :
  GCPMCPServer._is_safe_command command = negb (denied GCP command).
Proof.
  unfold denied, GCPMCPServer._is_safe_command.
  cbn [dangerous_patterns substitution_markers]. cbv zeta.
  rewrite gcp_scan_any, negb_involutive, dash_test.
  destruct (any_in GCPMCPServer.dangerous_patterns (lower command)) eqn:A;
    [reflexivity|].
  destruct (startswith command "-"); [reflexivity|].
  assert (H1 : contains "&&" command = false).
  { destruct (contains "&&" command) eqn:E; [|reflexivity].
    apply (contains_lower "&&" _ eq_refl) in E.
    rewrite (any_in_false _ _ "&&" A) in E; [discriminate E | in_list]. }
  assert (H2 : contains "||" command = false).
  { destruct (contains "||" command) eqn:E; [|reflexivity].
    apply (contains_lower "||" _ eq_refl) in E.
    rewrite (any_in_false _ _ "||" A) in E; [discriminate E | in_list]. }
  unfold GCPMCPServer.suspicious_chars, any_in. cbn [existsb orb negb].
  rewrite H1, H2.
  destruct (contains "$(" command), (contains "`" command),
    (contains "${" command), (contains "\" command); reflexivity.
Qed.

(** The gates against the rule table, for the proofs below. *)
Lemma is_safe_denied (provider : ProviderKind) (command : string) :
  is_safe provider command = negb (denied provider command).
Proof.
  destruct provider; cbn [is_safe];
    [apply aws_rule | apply azure_rule | apply gcp_rule ..].
Qed.

(** X1.  Every gate is a rule table: a command is refused exactly when its
    lower-cased text contains an entry of the provider's denylist, or it
    begins with a dash, or (GCP, gsutil, bq) it contains one of [$(],
    [`], [${] and the backslash.  The delete exception of the GCP gate, the
    [ delete ] tests of the Azure gate, the test for two leading dashes and
    the entries [&&] and [||] of [suspicious_chars] never change a
    verdict. *)
Theorem gate_is_rule_table (provider : ProviderKind) (command : string) :
  is_safe provider command = negb (denied provider command).
Proof.
  destruct provider; cbn [is_safe];
    [apply aws_rule | apply azure_rule | apply gcp_rule ..].
Qed.

(** X2.  The verdict of a gate does not depend on the case of the letters:
    a command and its lower-cased form are both allowed or both refused. *)
Theorem gate_ignores_case (provider : ProviderKind) (command : string) :
  is_safe provider (lower command) = is_safe provider command.
Proof.
  rewrite !is_safe_denied. unfold denied.
  rewrite lower_idem, markers_lower.
  rewrite (startswith_lower "-"); [reflexivity|].
  cbn [chars]. repeat constructor. apply caseless_dash.
Qed.

(** X3.  A refusal cannot be lifted by a context: when a command holds a
    denylist entry (in any case) or a substitution marker of its provider,
    every command that contains it is refused. *)
Theorem refusal_survives_context
        (provider : ProviderKind) (before command after : string) :
  any_in (dangerous_patterns provider) (lower command)
  || any_in (substitution_markers provider) command = true ->
  is_safe provider (before ++ command ++ after) = false.
Proof.
  intros H. rewrite is_safe_denied. unfold denied.
  apply negb_false_iff.
  apply orb_true_iff in H as [H|H];
    apply any_in_true in H as (p & Hin & Hc);
    apply contains_inv in Hc as (a & b & E).
  - apply orb_true_iff; left. apply orb_true_iff; left.
    apply (any_in_intro _ _ p Hin).
    rewrite !lower_app, E.
    replace (lower before ++ (a ++ p ++ b) ++ lower after)
      with ((lower before ++ a) ++ p ++ (b ++ lower after))
      by now rewrite !append_assoc.
    apply contains_intro.
  - apply orb_true_iff; right.
    apply (any_in_intro _ _ p Hin).
    rewrite E.
    replace (before ++ (a ++ p ++ b) ++ after)
      with ((before ++ a) ++ p ++ (b ++ after))
      by now rewrite !append_assoc.
    apply contains_intro.
Qed.

Lemma refusal_survives_context_witness :
  is_safe GCP ("compute instances list --filter=name:" ++ "UnDeleted"
               ++ " --help") = false.
Proof.
  apply (refusal_survives_context GCP
           "compute instances list --filter=name:" "UnDeleted" " --help").
  reflexivity.
Defined.

(** X4.  A command that, once the whitespace around it is gone, begins
    with a dash is rejected by every provider's handler. *)
Theorem leading_dash_rejected
        (provider : ProviderKind) (pad rest : string) :
  all_space pad = true ->
  evaluate (pad ++ String "-" rest) provider = refused.
Proof.
  intros Hpad. unfold evaluate.
  assert (E : strip (pad ++ String "-" rest) = strip (String "-" rest)).
  { rewrite <- (append_nil_r (String "-" rest)) at 1.
    now apply strip_pad. }
  rewrite E.
  destruct (strip_keeps_head "-" rest eq_refl) as [r ->].
  cbn [nonempty negb].
  rewrite is_safe_denied. unfold denied.
  cbn [startswith]. rewrite Ascii.eqb_refl. cbn [andb].
  now rewrite orb_true_r.
Qed.

Lemma leading_dash_rejected_witness :
  evaluate ("  " ++ String "-" "-profile admin s3 ls") AWS = refused.
Proof. apply (leading_dash_rejected AWS "  " "-profile admin s3 ls"). reflexivity. Defined.

(** X5.  GCP, gsutil and bq: a command that contains a command
    substitution marker -- [$(], a backquote, [${] -- or a backslash is
    rejected. *)
Theorem gcp_markers_rejected (provider : ProviderKind) (raw m : string) :
  In provider [GCP; GCS; BigQuery] ->
  In m [ "$("; "`"; "${"; "\" ] ->
  contains m raw = true ->
  evaluate raw provider = refused.
Proof.
  intros Hp Hm Hc.
  assert (Hs : solid m = true)
    by (cbn in Hm; destruct Hm as [<-|[<-|[<-|[<-|[]]]]]; reflexivity).
  pose proof (contains_strip _ _ Hs Hc) as Hc'.
  assert (Hn : nonempty (strip raw) = true).
  { apply (contains_nonempty m); [exact Hc'|]. now destruct m. }
  apply evaluate_refused; [exact Hn|].
  rewrite is_safe_denied. apply negb_false_iff. unfold denied.
  apply orb_true_iff; right.
  apply (any_in_intro _ _ m); [|exact Hc'].
  cbn in Hp. destruct Hp as [<-|[<-|[<-|[]]]]; exact Hm.
Qed.

Lemma gcp_markers_rejected_witness :
  evaluate "compute instances list --filter=$(id)" GCP = refused.
Proof.
  apply (gcp_markers_rejected GCP "compute instances list --filter=$(id)" "$(").
  - left; reflexivity.
  - left; reflexivity.
  - reflexivity.
Defined.

End FurtherGateProperties.

(* ===================================================================== *)
(** * Further facts about the tokenizer and the decoder *)
(* ===================================================================== *)

Module MoreShlexFacts.
Import PyStr Shlex ShlexFacts.

Lemma then_tokens_err (t : string) r (e : string) :
  then_tokens t r = Err e -> r = Err e.
Proof. destruct r; simpl; [discriminate | now intros [= ->]]. Qed.

(** The lexer has two ways to fail. *)
Lemma read_tokens_errors (input : string) :
  forall st es quoted token msg,
    read_tokens st es quoted token input = Err msg ->
    msg = "No closing quotation" \/ msg = "No escaped character".
Proof.
  induction input as [|c input IH]; intros st es quoted token msg H.
  - destruct st; cbn [read_tokens] in H; try discriminate H;
      injection H as <-; auto.
  - destruct st as [| |q|e]; cbn [read_tokens] in H;
      repeat match type of H with
             | (if ?b then _ else _) = _ => destruct b
             | then_tokens _ _ = Err _ => apply then_tokens_err in H
             end; eauto.
Qed.

(** Without a backslash in the input the lexer never enters an escape. *)
Lemma no_backslash_no_escape (input : string) :
  forallb (fun c => negb (is_escape c)) (chars input) = true ->
  forall st es quoted token,
    (forall e, st <> InEscape e) ->
    read_tokens st es quoted token input <> Err "No escaped character".
Proof.
  induction input as [|c input IH]; intros Hin st es quoted token Hst.
  - destruct st; cbn [read_tokens]; try discriminate. now destruct (Hst e).
  - cbn [chars forallb] in Hin. apply andb_true_iff in Hin as [Hc Hin].
    apply negb_true_iff in Hc.
    assert (G : forall st' es' q' t', (forall e, st' <> InEscape e) ->
                read_tokens st' es' q' t' input <> Err "No escaped character")
      by (intros; now apply IH).
    assert (G' : forall t0 st' es' q' t', (forall e, st' <> InEscape e) ->
                then_tokens t0 (read_tokens st' es' q' t' input)
                <> Err "No escaped character").
    { intros t0 st' es' q' t' Hs' E. apply then_tokens_err in E.
      now apply (G st' es' q' t'). }
    destruct st as [| |q|e]; cbn [read_tokens]; rewrite ?Hc;
      [ | | | now destruct (Hst e)];
      cbn [andb];
      repeat match goal with
             | |- (if ?b then _ else _) <> _ => destruct b
             end;
      (apply G || apply G'); discriminate.
Qed.

Lemma chars_no_backslash (s : string) :
  contains "\" s = false ->
  forallb (fun c => negb (is_escape c)) (chars s) = true.
Proof.
  induction s as [|c s IH]; [reflexivity|].
  cbn [contains startswith chars forallb]. intros H.
  apply orb_false_iff in H as [Hc H].
  rewrite andb_true_r in Hc.
  assert (E : is_escape c = false)
    by (unfold is_escape, backslash; rewrite Ascii.eqb_sym; exact Hc).
  rewrite E. cbn [negb andb]. exact (IH H).
Qed.

(** Inside a word the characters of a bare word are copied. *)
Lemma read_bare (u : string) :
  forallb (fun c => negb (is_whitespace c) && negb (is_quote c)
                    && negb (is_escape c)) (chars u) = true ->
  forall es quoted token,
    read_tokens InWord es quoted token u = Ok (emit (token ++ u) quoted).
Proof.
  induction u as [|c u IH]; intros Hu es quoted token.
  - cbn [read_tokens]. now rewrite PyStrFacts.append_nil_r.
  - cbn [chars forallb] in Hu. apply andb_true_iff in Hu as [Hc Hu].
    apply andb_true_iff in Hc as [Hc He].
    apply andb_true_iff in Hc as [Hw Hq].
    apply negb_true_iff in Hw, Hq, He.
    cbn [read_tokens]. rewrite Hw, Hq, He, (IH Hu).
    unfold push. now rewrite PyStrFacts.append_assoc.
Qed.

(** A bare word is its own single token. *)
Lemma split_bare (u : string) : bare u = true -> split u = Ok [u].
Proof.
  unfold bare, split. intros H. apply andb_true_iff in H as [Hn Hu].
  destruct u as [|c u]; [discriminate|].
  cbn [chars forallb] in Hu. apply andb_true_iff in Hu as [Hc Hu].
  apply andb_true_iff in Hc as [Hc He].
  apply andb_true_iff in Hc as [Hw Hq].
  apply negb_true_iff in Hw, Hq, He.
  cbn [read_tokens]. rewrite Hw, Hq, He, (read_bare u Hu).
  reflexivity.
Qed.

(** Two texts that tokenize, put together with a whitespace character. *)
Lemma split_app (a b : string) (w : ascii) (ta tb : list string) :
  is_whitespace w = true -> split a = Ok ta -> split b = Ok tb ->
  split (a ++ String w b) = Ok (ta ++ tb)%list.
Proof.
  intros Hw Ha Hb. unfold split in *.
  now rewrite (read_tokens_prefix a w b Hw _ _ _ _ _ Ha), Hb.
Qed.

Lemma split_join (words : list string) :
  Forall (fun u => bare u = true) words -> split (join words) = Ok words.
Proof.
  induction words as [|u words IH]; intros H; [reflexivity|].
  inversion H as [|? ? Hu Hws]; subst.
  destruct words as [|v words].
  - now apply split_bare.
  - change (join (u :: v :: words))
      with (u ++ String " " (join (v :: words))).
    apply (split_app u _ " " [u] (v :: words) eq_refl).
    + now apply split_bare.
    + now apply IH.
Qed.

(** Bytes below 0x80 decode to themselves. *)
Lemma decode_ascii (bs : list byte) :
  ascii_bytes bs = true -> Utf8.decode bs = Some (map Byte.to_N bs).
Proof.
  unfold ascii_bytes. induction bs as [|b bs IH]; [reflexivity|].
  cbn [forallb]. intros H. apply andb_true_iff in H as [Hb H].
  cbn [Utf8.decode map]. cbv zeta. now rewrite Hb, (IH H).
Qed.

End MoreShlexFacts.

(* ===================================================================== *)
(** * Further facts about the handlers *)
(* ===================================================================== *)

Module MoreHandlerFacts.
Import Proc HandlerFacts.

#[local] Opaque Utf8.decode PyStr.str_of_int Help.truncate.

(** A handler reads two keys of its arguments, with their defaults. *)
Lemma handler_args provider arguments b :
  handler provider arguments b
  = handler provider
      (Args (Some (get (command arguments) "")) (timeout arguments)) b.
Proof. rewrite handler_guarded. now destruct arguments as [[raw|] t]. Qed.

(** The child after the executor has returned. *)
Lemma execute_proc full_command t b w argv :
  Shlex.split full_command = Ok argv ->
  proc (snd (_execute_command full_command t b w))
  = match b with
    | FailsToStart _ => proc w
    | Exits returncode _ _ => Reaped returncode
    | Hangs | Unwaited => Running
    end.
Proof.
  intros H. unfold _execute_command, try_except, bind. rewrite H.
  destruct b as [msg|rc out err| |]; cbn; [reflexivity| |reflexivity..].
  unfold decode.
  destruct out as [|o out]; destruct err as [|e err]; cbn;
    repeat match goal with
           | |- context [Utf8.decode ?x] => destruct (Utf8.decode x)
           end; reflexivity.
Qed.

(** The help handlers: one spawn of the chosen [cmd], whatever follows. *)
Lemma get_help_events cmd t limit b w :
  events (snd (Help.get_help cmd t limit b w)) = (events w ++ [Exec cmd])%list.
Proof.
  unfold Help.get_help, try_except, bind.
  destruct b as [msg|rc out err| |]; cbn; [reflexivity| |reflexivity..].
  unfold decode.
  destruct (rc =? 0)%Z; cbn;
    repeat match goal with
           | |- context [Utf8.decode ?x] => destruct (Utf8.decode x)
           end; reflexivity.
Qed.

Lemma get_help_hangs cmd t limit w :
  Help.get_help cmd t limit Hangs w
  = (Text.Chars (Text.cp "Error: Help command timed out"),
     World (events w ++ [Exec cmd]) Running).
Proof. reflexivity. Qed.

Lemma get_help_text cmd t limit out err w text :
  Utf8.decode out = Some text ->
  fst (Help.get_help cmd t limit (Exits 0 out err) w)
  = Text.Chars (Help.truncate limit text).
Proof.
  intros H. unfold Help.get_help, try_except, bind. cbn.
  unfold decode. now rewrite H.
Qed.

End MoreHandlerFacts.

Module TruncateFacts.

Lemma suffix_length :
  List.length (Text.cp (Text.nl ++ "... (truncated)")) = 16%nat.
Proof. reflexivity. Qed.

(** The slice and the marker. *)
Lemma truncate_bounded (limit : nat) (whole : list N) :
  bounded_by limit whole (Help.truncate limit whole).
Proof.
  unfold bounded_by, Help.truncate.
  destruct (limit <? List.length whole)%nat eqn:E.
  - apply Nat.ltb_lt in E.
    assert (L : List.length (firstn limit whole) = limit)
      by (rewrite length_firstn; lia).
    repeat split.
    + rewrite length_app, L, suffix_length. lia.
    + rewrite firstn_app, L, Nat.sub_diag, firstn_firstn, Nat.min_id.
      cbn [firstn]. now rewrite app_nil_r.
    + lia.
  - apply Nat.ltb_ge in E. repeat split; lia.
Qed.

End TruncateFacts.

(* ===================================================================== *)
(** * Further properties of the handlers *)
(* ===================================================================== *)

Section FurtherHandlerProperties.
Import PyStr Proc HandlerFacts ShlexFacts MoreFacts MoreShlexFacts
       MoreHandlerFacts TruncateFacts.

Lemma gcp_family (provider : ProviderKind) :
  In provider [GCP; GCS; BigQuery] -> is_safe provider = is_safe GCP.
Proof. cbn [In]. intros [<-|[<-|[<-|[]]]]; cbn [is_safe]; reflexivity. Qed.

(** X6.  A missing, empty or whitespace-only command: every handler
    answers [Error: No command provided], whatever the timeout and the
    child, and leaves the world as it found it. *)
Theorem blank_command_refused
        (provider : ProviderKind) (arguments : ToolArguments)
        (b : behaviour) (w : world) :
  all_space (get (command arguments) "") = true ->
  handler provider arguments b w = (Text "Error: No command provided", w).
Proof.
  intros H. rewrite handler_args, handler_guarded. unfold guarded.
  cbn [command get]. now rewrite (strip_all_space _ H).
Qed.

Lemma blank_command_refused_witness :
  handler Azure (Args None (Some 5%Z)) Hangs initial
  = (Text "Error: No command provided", initial).
Proof.
  apply (blank_command_refused Azure (Args None (Some 5%Z)) Hangs initial).
  reflexivity.
Defined.

(** X7.  Whitespace before and after the command never matters: the
    verdict, the argv and the whole run of the handler are those of the
    command without it. *)
Theorem padding_is_ignored
        (provider : ProviderKind) (before raw after : string) :
  all_space before = true -> all_space after = true ->
  evaluate (before ++ raw ++ after) provider = evaluate raw provider
  /\ command_spec (before ++ raw ++ after) provider = command_spec raw provider
  /\ forall t b w,
       handler provider (Args (Some (before ++ raw ++ after)) t) b w
       = handler provider (Args (Some raw) t) b w.
Proof.
  intros H1 H2. pose proof (strip_pad before raw after H1 H2) as E.
  unfold evaluate, command_spec. rewrite E.
  repeat split. intros t b w.
  rewrite handler_guarded. unfold guarded. cbn [command get].
  now rewrite E.
Qed.

Lemma padding_is_ignored_witness :
  evaluate ("  " ++ "s3 ls" ++ String "009" " ") AWS = evaluate "s3 ls" AWS
  /\ command_spec ("  " ++ "s3 ls" ++ String "009" " ") AWS
     = command_spec "s3 ls" AWS
  /\ forall t b w,
       handler AWS (Args (Some ("  " ++ "s3 ls" ++ String "009" " ")) t) b w
       = handler AWS (Args (Some "s3 ls") t) b w.
Proof.
  apply (padding_is_ignored AWS "  " "s3 ls" (String "009" " "));
    reflexivity.
Defined.

(** X8.  A handler calls the spawn exactly when the verdict on its
    command is Allowed and the full command tokenizes; a process is
    started exactly when, besides, the spawn does not fail. *)
Theorem process_started_iff
        (provider : ProviderKind) (arguments : ToolArguments)
        (b : behaviour) :
  let raw := get (command arguments) "" in
  let w := snd (handler provider arguments b initial) in
  (events w <> []
   <-> evaluate raw provider = Allowed
       /\ exists argv, command_spec raw provider = Ok argv)
  /\ (started w = true
      <-> evaluate raw provider = Allowed
          /\ (exists argv, command_spec raw provider = Ok argv)
          /\ forall msg, b <> FailsToStart msg).
Proof.
  cbn zeta. rewrite handler_args.
  set (raw := get (command arguments) ""). set (t := timeout arguments).
  unfold started.
  destruct (evaluate raw provider) as [|reason] eqn:E.
  - rewrite (handler_allowed _ _ _ _ E). unfold command_spec.
    destruct (Shlex.split (binary provider ++ " " ++ strip raw))
      as [argv|msg] eqn:S.
    + rewrite (execute_events _ _ _ _ _ S), (execute_proc _ _ _ _ _ S).
      split; split.
      * intros _. eauto.
      * intros _. discriminate.
      * intros H. repeat split; eauto. intros msg ->. discriminate H.
      * intros (_ & _ & H). destruct b; try reflexivity.
        now destruct (H msg).
    + rewrite (execute_unparsed _ _ _ _ _ S). cbn. split; split.
      * intros H. now destruct H.
      * intros [_ [argv H]]. discriminate H.
      * discriminate.
      * intros (_ & [argv H] & _). discriminate H.
  - rewrite (handler_rejected _ _ _ _ _ _ E). cbn. split; split.
    + intros H. now destruct H.
    + intros [H _]. discriminate H.
    + discriminate.
    + intros [H _]. discriminate H.
Qed.

(** X9.  An allowed command that does not tokenize: the handler answers
    [Error parsing command: ] followed by the lexer's message, which is
    [No closing quotation] or [No escaped character], and starts no
    process. *)
Theorem parse_error_reported
        (provider : ProviderKind) (raw msg : string) (t : option Z)
        (b : behaviour) (w : world) :
  evaluate raw provider = Allowed ->
  command_spec raw provider = Err msg ->
  handler provider (Args (Some raw) t) b w
  = (Text ("Error parsing command: " ++ msg), w)
  /\ (msg = "No closing quotation" \/ msg = "No escaped character").
Proof.
  intros E S. rewrite (handler_allowed _ _ _ _ E).
  unfold command_spec in S. split.
  - now apply execute_unparsed.
  - unfold Shlex.split in S. now apply read_tokens_errors in S.
Qed.

Lemma parse_error_reported_witness :
  handler AWS (Args (Some "s3 ls 'my bucket") None) Hangs initial
  = (Text ("Error parsing command: " ++ "No closing quotation"), initial)
  /\ ("No closing quotation" = "No closing quotation"
      \/ "No closing quotation" = "No escaped character").
Proof.
  apply (parse_error_reported AWS "s3 ls 'my bucket" "No closing quotation"
           None Hangs initial); reflexivity.
Defined.

(** X10.  GCP, gsutil and bq: the gate refuses the backslash, so an
    allowed command can fail to tokenize in one way only, an unclosed
    quote. *)
Theorem gcp_parse_error_is_unclosed_quote
        (provider : ProviderKind) (raw msg : string) :
  In provider [GCP; GCS; BigQuery] ->
  evaluate raw provider = Allowed ->
  command_spec raw provider = Err msg ->
  msg = "No closing quotation".
Proof.
  intros Hp E S.
  assert (Hsafe : is_safe GCP (strip raw) = true).
  { unfold evaluate in E.
    destruct (negb (nonempty (strip raw))); [discriminate E|].
    destruct (is_safe provider (strip raw)) eqn:Hs; [|discriminate E].
    rewrite <- (gcp_family _ Hp). exact Hs. }
  rewrite is_safe_denied in Hsafe. apply negb_true_iff in Hsafe.
  unfold denied in Hsafe. apply orb_false_iff in Hsafe as [_ Hm].
  assert (Hb : contains "\" (strip raw) = false)
    by (apply (any_in_false _ _ _ Hm); cbn; auto).
  unfold command_spec in S. rewrite split_binary in S.
  apply then_tokens_err in S.
  destruct (read_tokens_errors _ _ _ _ _ _ S) as [->| ->]; [reflexivity|].
  exfalso. revert S. apply no_backslash_no_escape.
  - now apply chars_no_backslash.
  - discriminate.
Qed.

Lemma gcp_parse_error_is_unclosed_quote_witness :
  "No closing quotation" = "No closing quotation".
Proof.
  apply (gcp_parse_error_is_unclosed_quote GCP
           "compute instances list --filter='name:a" "No closing quotation").
  - left; reflexivity.
  - reflexivity.
  - reflexivity.
Defined.

(** X11.  When a handler has returned, a child of it is running exactly
    when the command was spawned and the wait did not come to its end:
    the command ran into its timeout, or [wait_for] raised on the value of
    the timeout, an integer too large for a float.  A rejected or
    unparsable command starts none, a failed spawn leaves none, and a
    finished command has been waited for, also when its output does not
    decode. *)
Theorem child_alive_iff_wait_incomplete
        (provider : ProviderKind) (arguments : ToolArguments)
        (b : behaviour) :
  let raw := get (command arguments) "" in
  child_alive (snd (handler provider arguments b initial)) = true
  <-> evaluate raw provider = Allowed
      /\ (exists argv, command_spec raw provider = Ok argv)
      /\ (b = Hangs \/ b = Unwaited).
Proof.
  cbn zeta. rewrite handler_args.
  set (raw := get (command arguments) ""). set (t := timeout arguments).
  unfold child_alive.
  destruct (evaluate raw provider) as [|reason] eqn:E.
  - rewrite (handler_allowed _ _ _ _ E). unfold command_spec.
    destruct (Shlex.split (binary provider ++ " " ++ strip raw))
      as [argv|msg] eqn:S.
    + rewrite (execute_proc _ _ _ _ _ S). split.
      * intros H. repeat split; eauto.
        destruct b; try discriminate H; auto.
      * intros (_ & _ & [-> | ->]); reflexivity.
    + rewrite (execute_unparsed _ _ _ _ _ S). cbn. split.
      * discriminate.
      * intros (_ & [argv H] & _). discriminate H.
  - rewrite (handler_rejected _ _ _ _ _ _ E). cbn. split.
    + discriminate.
    + intros [H _]. discriminate H.
Qed.

(** X12.  Output made of bytes below 0x80 is always reported: the finished
    command yields its report, with the exit code as it is and each
    non-empty pipe as its text. *)
Theorem ascii_output_is_reported
        (full_command : string) (argv : list string) (t returncode : Z)
        (stdout stderr : list byte) (w : world) :
  Shlex.split full_command = Ok argv ->
  ascii_bytes stdout = true -> ascii_bytes stderr = true ->
  fst (_execute_command full_command t (Exits returncode stdout stderr) w)
  = Report full_command returncode (part stdout) (part stderr).
Proof.
  intros S Ho He.
  rewrite (execute_exits _ _ _ _ _ _ _ _ _ S
             (decode_ascii _ Ho) (decode_ascii _ He)).
  now destruct stdout, stderr.
Qed.

Lemma ascii_output_is_reported_witness :
  fst (_execute_command "aws s3 ls --bad" 30
         (Exits 252 [] [x75; x73; x61; x67; x65] ) initial)
  = Report "aws s3 ls --bad" 252 None (Some [117; 115; 97; 103; 101]%N).
Proof.
  apply (ascii_output_is_reported "aws s3 ls --bad"
           ["aws"; "s3"; "ls"; "--bad"] 30 252 []
           [x75; x73; x61; x67; x65] initial); reflexivity.
Defined.

(** X13.  Joining and splitting: an allowed command that is a list of bare
    words joined by single spaces is spawned as the binary's name followed
    by exactly those words. *)
Theorem plain_words_spawned_as_given
        (provider : ProviderKind) (raw : string) (words : list string)
        (t : option Z) (b : behaviour) :
  evaluate raw provider = Allowed ->
  strip raw = join words ->
  Forall (fun u => bare u = true) words ->
  command_spec raw provider = Ok (binary provider :: words)
  /\ events (snd (handler provider (Args (Some raw) t) b initial))
     = [Exec (binary provider :: words)].
Proof.
  intros E Hj Hw.
  assert (S : command_spec raw provider = Ok (binary provider :: words)).
  { unfold command_spec. rewrite split_binary, Hj.
    now rewrite (split_join _ Hw). }
  split; [exact S|].
  rewrite (handler_allowed _ _ _ _ E).
  now rewrite (execute_events _ _ _ _ _ S).
Qed.

Lemma plain_words_spawned_as_given_witness :
  command_spec " ec2 describe-instances --output json" AWS
  = Ok ["aws"; "ec2"; "describe-instances"; "--output"; "json"]
  /\ events (snd (handler AWS
                    (Args (Some " ec2 describe-instances --output json") None)
                    Hangs initial))
     = [Exec ["aws"; "ec2"; "describe-instances"; "--output"; "json"]].
Proof.
  apply (plain_words_spawned_as_given AWS
           " ec2 describe-instances --output json"
           ["ec2"; "describe-instances"; "--output"; "json"] None Hangs).
  - reflexivity.
  - reflexivity.
  - repeat constructor.
Defined.

(** X14.  Tokenization composes: two texts that tokenize, put together
    with a space, a tab, a carriage return or a newline between them,
    tokenize to the tokens of the first followed by those of the second. *)
Theorem tokens_of_concatenation
        (a b : string) (w : ascii) (ta tb : list string) :
  Shlex.is_whitespace w = true ->
  Shlex.split a = Ok ta -> Shlex.split b = Ok tb ->
  Shlex.split (a ++ String w b) = Ok (ta ++ tb)%list.
Proof.
  intros Hw Ha Hb. unfold Shlex.split in *.
  rewrite (read_tokens_prefix a w b Hw _ _ _ _ _ Ha).
  now rewrite Hb.
Qed.

Lemma tokens_of_concatenation_witness :
  Shlex.split ("s3 cp 'my file'" ++ String "009" "s3://bucket/")
  = Ok (["s3"; "cp"; "my file"] ++ ["s3://bucket/"])%list.
Proof.
  apply (tokens_of_concatenation "s3 cp 'my file'" "s3://bucket/" "009");
    reflexivity.
Defined.

(** X15.  The help tools do not ask the gate: whatever the service name
    is -- also one every gate refuses --, it is spawned as one element of
    the argv after the binary's name; for gcloud the same holds for the
    command name.  Each call of a help tool spawns exactly once. *)
Theorem help_passes_service_unchecked
        (service sub : string) (c : option string)
        (b : behaviour) (w : world) :
  nonempty service = true -> nonempty sub = true ->
  events (snd (Help._get_aws_help (Help.HelpArgs (Some service) c) b w))
  = (events w ++ [Exec ["aws"; service; "help"]])%list
  /\ events (snd (Help._get_azure_help (Help.HelpArgs (Some service) c) b w))
     = (events w ++ [Exec ["az"; service; "--help"]])%list
  /\ events (snd (Help._get_gcloud_help
                    (Help.HelpArgs (Some service) None) b w))
     = (events w ++ [Exec ["gcloud"; service; "--help"]])%list
  /\ events (snd (Help._get_gcloud_help
                    (Help.HelpArgs (Some service) (Some sub)) b w))
     = (events w ++ [Exec ["gcloud"; service; sub; "--help"]])%list.
Proof.
  intros Hs Hc.
  unfold Help._get_aws_help, Help._get_azure_help, Help._get_gcloud_help.
  cbn [Help.service Help.command get]. rewrite Hs, Hc. cbn [andb nonempty].
  repeat split; apply get_help_events.
Qed.

Lemma help_passes_service_unchecked_witness :
  events (snd (Help._get_aws_help
                 (Help.HelpArgs (Some "--profile=admin; rm") None)
                 Hangs initial))
  = ([] ++ [Exec ["aws"; "--profile=admin; rm"; "help"]])%list
  /\ events (snd (Help._get_azure_help
                    (Help.HelpArgs (Some "--profile=admin; rm") None)
                    Hangs initial))
     = ([] ++ [Exec ["az"; "--profile=admin; rm"; "--help"]])%list
  /\ events (snd (Help._get_gcloud_help
                    (Help.HelpArgs (Some "--profile=admin; rm") None)
                    Hangs initial))
     = ([] ++ [Exec ["gcloud"; "--profile=admin; rm"; "--help"]])%list
  /\ events (snd (Help._get_gcloud_help
                    (Help.HelpArgs (Some "--profile=admin; rm") (Some "-x"))
                    Hangs initial))
     = ([] ++ [Exec ["gcloud"; "--profile=admin; rm"; "-x"; "--help"]])%list.
Proof.
  apply (help_passes_service_unchecked "--profile=admin; rm" "-x" None
           Hangs initial); reflexivity.
Defined.

(** X16.  The help text is cut to a bound: when the help command exits
    with 0 and its output decodes, the AWS and Azure handlers return at
    most 2016 characters and the gcloud handler at most 3016; what they
    return agrees with the whole text on the first 2000 (3000) characters,
    and is the whole text when that has no more than 2000 (3000). *)
Theorem help_text_is_bounded
        (arguments : Help.HelpArguments) (stdout stderr : list byte)
        (w : world) (whole : list N) :
  Utf8.decode stdout = Some whole ->
  exists aws az gcloud,
    fst (Help._get_aws_help arguments (Exits 0 stdout stderr) w)
    = Text.Chars aws
    /\ fst (Help._get_azure_help arguments (Exits 0 stdout stderr) w)
       = Text.Chars az
    /\ fst (Help._get_gcloud_help arguments (Exits 0 stdout stderr) w)
       = Text.Chars gcloud
    /\ bounded_by 2000 whole aws
    /\ bounded_by 2000 whole az
    /\ bounded_by 3000 whole gcloud.
Proof.
  intros H.
  exists (Help.truncate 2000 whole), (Help.truncate 2000 whole),
    (Help.truncate 3000 whole).
  unfold Help._get_aws_help, Help._get_azure_help, Help._get_gcloud_help.
  cbv zeta.
  rewrite !(get_help_text _ _ _ _ _ _ _ H).
  repeat split; apply truncate_bounded.
Qed.

Lemma help_text_is_bounded_witness :
  exists aws az gcloud,
    fst (Help._get_aws_help (Help.HelpArgs (Some "s3") None)
           (Exits 0 [x6f; x6b] []) initial)
    = Text.Chars aws
    /\ fst (Help._get_azure_help (Help.HelpArgs (Some "s3") None)
              (Exits 0 [x6f; x6b] []) initial)
       = Text.Chars az
    /\ fst (Help._get_gcloud_help (Help.HelpArgs (Some "s3") None)
              (Exits 0 [x6f; x6b] []) initial)
       = Text.Chars gcloud
    /\ bounded_by 2000 [111; 107]%N aws
    /\ bounded_by 2000 [111; 107]%N az
    /\ bounded_by 3000 [111; 107]%N gcloud.
Proof.
  apply (help_text_is_bounded (Help.HelpArgs (Some "s3") None)
           [x6f; x6b] [] initial [111; 107]%N).
  reflexivity.
Defined.

(** X17.  A help command that outlives its timeout: the handler answers
    [Error: Help command timed out], has made the spawn as its only
    process call, and leaves the child running. *)
Theorem help_timeout_leaves_child_running
        (arguments : Help.HelpArguments) (w : world) :
  help_timed_out w (Help._get_aws_help arguments Hangs w)
  /\ help_timed_out w (Help._get_azure_help arguments Hangs w)
  /\ help_timed_out w (Help._get_gcloud_help arguments Hangs w).
Proof.
  unfold Help._get_aws_help, Help._get_azure_help, Help._get_gcloud_help.
  cbv zeta. rewrite !get_help_hangs. unfold help_timed_out.
  cbn [fst snd events].
  repeat split; eauto.
Qed.

End FurtherHandlerProperties.

(* ===================================================================== *)
(** * Properties of the check tools *)
(* ===================================================================== *)

Module CheckFacts.
Import Proc Text.

#[local] Opaque Utf8.decode Text.strip.

(** The version command exits with a non-zero code. *)
Lemma check_version_fails k rc out err b2 w :
  rc <> 0%Z ->
  Check.check k (Exits rc out err) b2 w
  = (Chars (cp (Check.not_installed k)),
     World (events w ++ [Exec (Check.version_cmd k)]) (Reaped rc)).
Proof.
  intros H. apply Z.eqb_neq in H.
  unfold Check.check, try_except, bind. cbn. now rewrite H.
Qed.

End CheckFacts.

Section CheckProperties.
Import Proc Text CheckFacts.

#[local] Opaque Utf8.decode Text.strip.

(** X18.  The checks [_check_aws_config], [_check_azure_login] and
    [_check_gcloud_auth] answer [... CLI is not installed or not
    accessible] exactly when the version command ran and exited with a
    non-zero code.  A binary that cannot be started is answered with the
    text of the exception instead. *)
Theorem not_installed_iff_version_exits_nonzero
        (k : Check.tool) (b1 b2 : behaviour) (w : world) :
  fst (Check.check k b1 b2 w) = Chars (cp (Check.not_installed k))
  <-> exists returncode stdout stderr,
        b1 = Exits returncode stdout stderr /\ returncode <> 0%Z.
Proof.
  split.
  - destruct b1 as [msg|rc out err| |].
    + unfold Check.check, try_except, bind. cbn. discriminate.
    + destruct (Z.eq_dec rc 0) as [->|Hrc]; [|eauto 6].
      intros H. exfalso. revert H.
      unfold Check.check, try_except, bind. cbn. unfold decode.
      destruct (Utf8.decode out) as [text|]; cbn; [|discriminate].
      destruct b2 as [msg2|rc2 out2 err2| |]; cbn.
      * discriminate.
      * destruct (rc2 =? 0)%Z; cbn;
          match goal with
          | |- context [Utf8.decode ?x] => destruct (Utf8.decode x); cbn
          end; try discriminate; destruct k; cbn; discriminate.
      * destruct k; cbn; discriminate.
      * discriminate.
    + destruct k; unfold Check.check, try_except, bind; cbn; discriminate.
    + unfold Check.check, try_except, bind. cbn. discriminate.
  - intros (rc & out & err & -> & Hrc).
    now rewrite (check_version_fails k rc out err b2 w Hrc).
Qed.

(** X19.  A version-first check takes nothing from its caller and starts
    at most two processes: the version command, and after it the probe,
    which is started only when the version command has exited with 0 and
    its output decodes. *)
Theorem check_spawns_fixed_commands
        (k : Check.tool) (b1 b2 : behaviour) (w : world) :
  events (snd (Check.check k b1 b2 w))
  = (events w ++ Exec (Check.version_cmd k)
       :: (if probe_reached b1 then [Exec (Check.probe_cmd k)] else []))%list.
Proof.
  unfold Check.check, try_except, bind, probe_reached, decodes.
  destruct b1 as [msg|rc out err| |]; cbn; [reflexivity| |reflexivity..].
  destruct (rc =? 0)%Z; cbn; [|reflexivity].
  unfold decode. destruct (Utf8.decode out) as [text|]; cbn; [|reflexivity].
  destruct b2 as [msg2|rc2 out2 err2| |]; cbn;
    rewrite <- ?app_assoc; [reflexivity| |reflexivity..].
  destruct (rc2 =? 0)%Z; cbn;
    repeat match goal with
           | |- context [Utf8.decode ?x] => destruct (Utf8.decode x)
           end; reflexivity.
Qed.

(** X20.  [_check_gcloud_config] starts its second listing after a first
    listing that exited with any code -- a failed first listing does not
    stop it --, provided the pipe it shows decodes; it starts nothing
    else. *)
Theorem config_check_spawns_fixed_commands (b1 b2 : behaviour) (w : world) :
  events (snd (Check._check_gcloud_config b1 b2 w))
  = (events w ++ Exec ["gcloud"; "config"; "list"]
       :: (if listing_reached b1
           then [Exec ["gcloud"; "config"; "configurations"; "list"]]
           else []))%list.
Proof.
  unfold Check._check_gcloud_config, try_except, bind, listing_reached,
    decodes.
  destruct b1 as [msg|rc out err| |]; cbn; [reflexivity| |reflexivity..].
  unfold decode.
  destruct (rc =? 0)%Z; cbn;
    match goal with
    | |- context [Utf8.decode ?x] => destruct (Utf8.decode x); cbn
    end; try reflexivity;
    (destruct b2 as [msg2|rc2 out2 err2| |]; cbn;
     rewrite <- ?app_assoc; [reflexivity| |reflexivity..];
     destruct (rc2 =? 0)%Z; cbn;
     repeat match goal with
            | |- context [Utf8.decode ?x] => destruct (Utf8.decode x); cbn
            end; reflexivity).
Qed.

End CheckProperties.
